(** * Billing periods of the Claude usage monitor

    A shallow embedding of [claude_monitor/core/billing_periods.py] and of the
    data classes of [claude_monitor/core/models.py] it works on, together with
    the part of Python's [datetime] module those functions call.

    - Python integers are [Z]; [//] and [%] with a positive divisor are
      [Z.div] and [Z.modulo].
    - Python floats are IEEE binary64 values, [spec_float] with precision 53
      and maximal exponent 1024.
    - A function that can raise returns a [result]: [Ok v] or [Raise e].
    - A [timedelta] is normalised by Python to a unique
      (days, seconds, microseconds) triple; it is modelled by the number of
      microseconds it denotes.  (Python bounds a [timedelta] by 999999999
      days; the ones built here are constants, differences of two [datetime]
      values and multiples of 30 days within such a difference.)
    - The reading of the clock, [datetime.now(self.user_tz)], is a parameter
      [now] of the methods that take it.
    - A [SessionBlock] is an object of the caller; a summary holds
      references to such objects, and a [store] maps a reference to the
      object's contents. *)

From Stdlib Require Import ZArith Lia List Bool String.
From Stdlib Require Import Floats.SpecFloat.
From stdpp Require Import base option list gmap strings.

Local Open Scope Z_scope.

(** ** Exceptions *)

Inductive exn : Type :=
  | ValueError
  | OverflowError.

Inductive result (A : Type) : Type :=
  | Ok (a : A)
  | Raise (e : exn).

Arguments Ok {A} a.
Arguments Raise {A} e.

Definition bind {A B : Type} (r : result A) (k : A -> result B) : result B :=
  match r with
  | Ok a => k a
  | Raise e => Raise e
  end.

Notation "'let*' x ':=' r 'in' k" := (bind r (fun x => k))
  (at level 10, x pattern, r at level 100, k at level 200).

(** ** The proleptic Gregorian calendar of [datetime]

    The functions below are those of CPython's [Lib/_pydatetime.py]. *)

Definition MINYEAR : Z := 1.
Definition MAXYEAR : Z := 9999.
Definition _MAXORDINAL : Z := 3652059.

Definition _is_leap (year : Z) : bool :=
  (year mod 4 =? 0) && (negb (year mod 100 =? 0) || (year mod 400 =? 0)).

Definition _days_before_year (year : Z) : Z :=
  let y := year - 1 in
  y * 365 + y / 4 - y / 100 + y / 400.

(** [_DAYS_IN_MONTH[month]]; the table has [-1] at index 0. *)
Definition _DAYS_IN_MONTH (month : Z) : Z :=
  match month with
  | 1 => 31 | 2 => 28 | 3 => 31 | 4 => 30 | 5 => 31 | 6 => 30
  | 7 => 31 | 8 => 31 | 9 => 30 | 10 => 31 | 11 => 30 | 12 => 31
  | _ => -1
  end.

(** [_DAYS_BEFORE_MONTH[month]]; the table has [-1] at index 0. *)
Definition _DAYS_BEFORE_MONTH (month : Z) : Z :=
  match month with
  | 1 => 0 | 2 => 31 | 3 => 59 | 4 => 90 | 5 => 120 | 6 => 151
  | 7 => 181 | 8 => 212 | 9 => 243 | 10 => 273 | 11 => 304 | 12 => 334
  | _ => -1
  end.

Definition _days_in_month (year month : Z) : Z :=
  if (month =? 2) && _is_leap year then 29 else _DAYS_IN_MONTH month.

Definition _days_before_month (year month : Z) : Z :=
  _DAYS_BEFORE_MONTH month + (if (2 <? month) && _is_leap year then 1 else 0).

Definition _ymd2ord (year month day : Z) : Z :=
  _days_before_year year + _days_before_month year month + day.

Definition _DI400Y : Z := 146097.
Definition _DI100Y : Z := 36524.
Definition _DI4Y : Z := 1461.

Definition _ord2ymd (n : Z) : Z * Z * Z :=
  let n := n - 1 in
  let n400 := n / _DI400Y in
  let n := n mod _DI400Y in
  let year := n400 * 400 + 1 in
  let n100 := n / _DI100Y in
  let n := n mod _DI100Y in
  let n4 := n / _DI4Y in
  let n := n mod _DI4Y in
  let n1 := n / 365 in
  let n := n mod 365 in
  let year := year + (n100 * 100 + n4 * 4 + n1) in
  if (n1 =? 4) || (n100 =? 4) then (year - 1, 12, 31)
  else
    let leapyear := (n1 =? 3) && (negb (n4 =? 24) || (n100 =? 3)) in
    let month := Z.shiftr (n + 50) 5 in
    let preceding :=
      _DAYS_BEFORE_MONTH month + (if (2 <? month) && leapyear then 1 else 0) in
    let '(month, preceding) :=
      if n <? preceding
      then (month - 1,
            preceding - (_DAYS_IN_MONTH (month - 1)
                         + (if (month - 1 =? 2) && leapyear then 1 else 0)))
      else (month, preceding) in
    (year, month, n - preceding + 1).

(** [calendar.monthrange(year, month)[1]] for a month in 1..12. *)
Definition monthrange_ndays (year month : Z) : Z :=
  _DAYS_IN_MONTH month + (if (month =? 2) && _is_leap year then 1 else 0).

(** ** Floats

    [int / int] is Python's true division: the quotient of the two integers
    rounded once to the nearest binary64 value.  [SFdiv] rounds the exact
    quotient of any two mantissas, so the integers are passed unrounded.
    (A zero divisor raises in Python; the only divisors here are the
    constants [10**6] and [2592000.0].) *)

Definition float : Type := spec_float.

Definition prec : Z := 53.
Definition emax : Z := 1024.

Definition float_add (x y : float) : float := SFadd prec emax x y.
Definition float_div (x y : float) : float := SFdiv prec emax x y.

Definition float_zero : float := S754_zero false.

Definition exact_of_int (n : Z) : float :=
  match n with
  | Z0 => S754_zero false
  | Zpos p => S754_finite false p 0
  | Zneg p => S754_finite true p 0
  end.

Definition int_truediv (a b : Z) : float :=
  float_div (exact_of_int a) (exact_of_int b).

(** [int(x)]: truncation toward zero. *)
Definition int_of_float (x : float) : result Z :=
  match x with
  | S754_zero _ => Ok 0
  | S754_infinity _ => Raise OverflowError
  | S754_nan => Raise ValueError
  | S754_finite s m e =>
      let a := if 0 <=? e then Zpos m * 2 ^ e else Zpos m / 2 ^ (- e) in
      Ok (if s then - a else a)
  end.

(** ** [timedelta] *)

Definition timedelta : Type := Z.

Definition US_PER_SECOND : Z := 1000000.
Definition US_PER_DAY : Z := 86400 * US_PER_SECOND.

Definition timedelta_days (d : Z) : timedelta := d * US_PER_DAY.
Definition timedelta_seconds (s : Z) : timedelta := s * US_PER_SECOND.

Definition total_seconds (td : timedelta) : float :=
  int_truediv td US_PER_SECOND.

(** ** [datetime]

    [naive_datetime] holds the seven calendar fields.  A [datetime] is
    timezone-aware: it also holds what [utcoffset()] returns for its
    [tzinfo], a [timedelta] (pytz attaches one fixed-offset [tzinfo] per
    offset of a zone, so the offset is a constant of the value). *)

Record naive_datetime : Type := mk_naive {
  year : Z;
  month : Z;
  day : Z;
  hour : Z;
  minute : Z;
  second : Z;
  microsecond : Z
}.

Record datetime : Type := mk_datetime {
  wall : naive_datetime;
  utcoffset : timedelta
}.

(** What a caller may pass where the code expects a [datetime]. *)
Inductive datetime_arg : Type :=
  | naive (c : naive_datetime)
  | aware (d : datetime).

(** [_check_date_fields] and [_check_time_fields]. *)
Definition check_fields (y mo d h mi s us : Z) : bool :=
  (MINYEAR <=? y) && (y <=? MAXYEAR)
  && (1 <=? mo) && (mo <=? 12)
  && (1 <=? d) && (d <=? _days_in_month y mo)
  && (0 <=? h) && (h <=? 23)
  && (0 <=? mi) && (mi <=? 59)
  && (0 <=? s) && (s <=? 59)
  && (0 <=? us) && (us <=? 999999).

(** The constructor [datetime(year, month, day, hour, minute, second,
    microsecond)]. *)
Definition datetime_new (y mo d h mi s us : Z) : result naive_datetime :=
  if check_fields y mo d h mi s us
  then Ok (mk_naive y mo d h mi s us)
  else Raise ValueError.

(** [replace]: an absent keyword keeps the field; the constructor checks the
    result. *)
Definition naive_replace (self : naive_datetime)
    (year' month' day' hour' minute' second' microsecond' : option Z)
    : result naive_datetime :=
  datetime_new (default (year self) year') (default (month self) month')
    (default (day self) day') (default (hour self) hour')
    (default (minute self) minute') (default (second self) second')
    (default (microsecond self) microsecond').

Definition replace (self : datetime)
    (year' month' day' hour' minute' second' microsecond' : option Z)
    : result datetime :=
  let* w := naive_replace (wall self) year' month' day' hour' minute'
              second' microsecond' in
  Ok (mk_datetime w (utcoffset self)).

Definition toordinal (self : naive_datetime) : Z :=
  _ymd2ord (year self) (month self) (day self).

(** [(toordinal() + 6) % 7], Monday is 0. *)
Definition weekday (self : naive_datetime) : Z :=
  (toordinal self + 6) mod 7.

(** The wall-clock reading as a count of microseconds: the [timedelta]
    that [__add__] builds from [toordinal()] and the time fields. *)
Definition wall_micros (self : naive_datetime) : Z :=
  ((toordinal self * 86400 + hour self * 3600 + minute self * 60
    + second self) * US_PER_SECOND) + microsecond self.

(** [combine(date.fromordinal(days), time(...))] from a normalised delta. *)
Definition of_wall_micros (t : Z) : naive_datetime :=
  let days := t / US_PER_DAY in
  let rest := t mod US_PER_DAY in
  let seconds := rest / US_PER_SECOND in
  let us := rest mod US_PER_SECOND in
  let h := seconds / 3600 in
  let rem := seconds mod 3600 in
  let '(y, mo, d) := _ord2ymd days in
  mk_naive y mo d h (rem / 60) (rem mod 60) us.

(** [self + other] on the fields. *)
Definition naive_add (self : naive_datetime) (other : timedelta)
    : result naive_datetime :=
  let delta := wall_micros self + other in
  let days := delta / US_PER_DAY in
  if (0 <? days) && (days <=? _MAXORDINAL)
  then Ok (of_wall_micros delta)
  else Raise OverflowError.

Definition datetime_add (self : datetime) (other : timedelta)
    : result datetime :=
  let* w := naive_add (wall self) other in
  Ok (mk_datetime w (utcoffset self)).

Definition datetime_sub_td (self : datetime) (other : timedelta)
    : result datetime :=
  datetime_add self (- other).

(** The instant a [datetime] denotes, in microseconds. *)
Definition utc_micros (self : datetime) : Z :=
  wall_micros (wall self) - utcoffset self.

(** [self - other] for two aware values: the difference of the fields,
    corrected by the two offsets. *)
Definition datetime_diff (self other : datetime) : timedelta :=
  utc_micros self - utc_micros other.

(** Comparison of aware values is comparison of instants. *)
Definition datetime_lt (a b : datetime) : bool := utc_micros a <? utc_micros b.
Definition datetime_le (a b : datetime) : bool := utc_micros a <=? utc_micros b.

(** ** Time zones

    [user_tz] is [timezone.utc] or a [pytz] zone.  Of a pytz zone the code
    uses [fromutc] (through [astimezone]) and [localize]; both choose an
    offset, the first from a UTC reading, the second from a wall-clock
    reading. *)

Record pytz_zone : Type := mk_zone {
  fromutc_offset : Z -> timedelta;
  localize_offset : Z -> timedelta
}.

Inductive timezone : Type :=
  | tz_utc
  | tz_pytz (z : pytz_zone).

Definition tz_fromutc_offset (tz : timezone) (utc : Z) : timedelta :=
  match tz with
  | tz_utc => 0
  | tz_pytz z => fromutc_offset z utc
  end.

(** [astimezone]: [utc = self - offset], then [tz.fromutc(utc)], which adds
    the offset in force.  (When [tz] is the very [tzinfo] of [self] Python
    returns [self] at once; lemma [astimezone_same_offset] shows the two
    steps give that value back.) *)
Definition astimezone (self : datetime) (tz : timezone) : result datetime :=
  let* utc := naive_add (wall self) (- utcoffset self) in
  let off := tz_fromutc_offset tz (wall_micros utc) in
  let* w := naive_add utc off in
  Ok (mk_datetime w off).

(** ** [models.py] *)

Inductive BillingPeriodType : Type :=
  | DAILY
  | WEEKLY
  | MONTHLY
  | CUSTOM.

Module UsageEntry.
Record t : Type := mk {
  timestamp : datetime;
  input_tokens : Z;
  output_tokens : Z;
  cache_creation_tokens : Z;
  cache_read_tokens : Z;
  cost_usd : float;
  model : string;
  message_id : string;
  request_id : string
}.
End UsageEntry.

Module TokenCounts.
Record t : Type := mk {
  input_tokens : Z;
  output_tokens : Z;
  cache_creation_tokens : Z;
  cache_read_tokens : Z
}.

(** [TokenCounts()] *)
Definition empty : t := mk 0 0 0 0.

Definition total_tokens (self : t) : Z :=
  input_tokens self + output_tokens self + cache_creation_tokens self
  + cache_read_tokens self.
End TokenCounts.

(** Of a [SessionBlock] the billing code reads [entries] only; the fields
    kept here are those the tests set. *)
Module SessionBlock.
Record t : Type := mk {
  id : string;
  start_time : datetime;
  end_time : datetime;
  entries : list UsageEntry.t;
  token_counts : TokenCounts.t;
  cost_usd : float
}.
End SessionBlock.

(** Session blocks are objects of the caller: a summary stores references
    to them, and a [store] gives each reference the current contents of its
    object. *)
Definition ref : Type := positive.
Definition store : Type := ref -> SessionBlock.t.

Module BillingPeriod.
Record t : Type := mk {
  period_type : BillingPeriodType;
  start_time : datetime;
  end_time : datetime;
  is_current : bool;
  custom_label : option string
}.

Definition contains_timestamp (self : t) (timestamp : datetime) : bool :=
  datetime_le (start_time self) timestamp
  && datetime_lt timestamp (end_time self).
End BillingPeriod.

(** [min(timestamps)] and [max(timestamps)] on a non-empty list: the first
    extreme element is kept. *)
Definition min_timestamp (x : datetime) (l : list datetime) : datetime :=
  fold_left (fun cur item => if datetime_lt item cur then item else cur) l x.

Definition max_timestamp (x : datetime) (l : list datetime) : datetime :=
  fold_left (fun cur item => if datetime_lt cur item then item else cur) l x.

Module BillingPeriodSummary.
Record t : Type := mk {
  period : BillingPeriod.t;
  total_cost : float;
  total_tokens : Z;
  token_counts : TokenCounts.t;
  session_blocks : list ref;
  entries_count : Z;
  models_used : list string;
  per_model_costs : gmap string float;
  first_usage : option datetime;
  last_usage : option datetime
}.

(** [BillingPeriodSummary(period=period)] *)
Definition new (period : BillingPeriod.t) : t :=
  mk period float_zero 0 TokenCounts.empty [] 0 [] ∅ None None.

Definition relevant_entries (self : t) (session_block : SessionBlock.t)
    : list UsageEntry.t :=
  filter (fun entry =>
            BillingPeriod.contains_timestamp (period self)
              (UsageEntry.timestamp entry) = true)
    (SessionBlock.entries session_block).

(** What the body of the [for entry in relevant_entries] loop updates. *)
Record loop_state : Type := mk_loop {
  period_cost : float;
  period_tokens : TokenCounts.t;
  loop_models_used : list string;
  loop_per_model_costs : gmap string float
}.

Definition loop_body (st : loop_state) (entry : UsageEntry.t) : loop_state :=
  let cost := float_add (period_cost st) (UsageEntry.cost_usd entry) in
  let tokens :=
    TokenCounts.mk
      (TokenCounts.input_tokens (period_tokens st)
       + UsageEntry.input_tokens entry)
      (TokenCounts.output_tokens (period_tokens st)
       + UsageEntry.output_tokens entry)
      (TokenCounts.cache_creation_tokens (period_tokens st)
       + UsageEntry.cache_creation_tokens entry)
      (TokenCounts.cache_read_tokens (period_tokens st)
       + UsageEntry.cache_read_tokens entry) in
  let m := UsageEntry.model entry in
  let used :=
    if negb (String.eqb m "")
       && negb (bool_decide (m ∈ loop_models_used st))
    then loop_models_used st ++ [m]
    else loop_models_used st in
  let costs :=
    match loop_per_model_costs st !! m with
    | Some c => <[m := float_add c (UsageEntry.cost_usd entry)]>
                  (loop_per_model_costs st)
    | None => <[m := UsageEntry.cost_usd entry]> (loop_per_model_costs st)
    end in
  mk_loop cost tokens used costs.

(** The method assigns to fields of [self] only: the store is read and
    the new state of [self] is returned. *)
Definition add_session_block (σ : store) (self : t) (session_block : ref)
    : t :=
  let relevant := relevant_entries self (σ session_block) in
  match relevant with
  | [] => self
  | first :: rest =>
      let blocks := session_blocks self ++ [session_block] in
      let st :=
        fold_left loop_body relevant
          (mk_loop float_zero TokenCounts.empty (models_used self)
             (per_model_costs self)) in
      let tc := token_counts self in
      let pt := period_tokens st in
      let tokens :=
        TokenCounts.mk
          (TokenCounts.input_tokens tc + TokenCounts.input_tokens pt)
          (TokenCounts.output_tokens tc + TokenCounts.output_tokens pt)
          (TokenCounts.cache_creation_tokens tc
           + TokenCounts.cache_creation_tokens pt)
          (TokenCounts.cache_read_tokens tc
           + TokenCounts.cache_read_tokens pt) in
      let earliest :=
        min_timestamp (UsageEntry.timestamp first)
          (map UsageEntry.timestamp rest) in
      let latest :=
        max_timestamp (UsageEntry.timestamp first)
          (map UsageEntry.timestamp rest) in
      let first_usage' :=
        match first_usage self with
        | None => Some earliest
        | Some f => if datetime_lt earliest f then Some earliest else Some f
        end in
      let last_usage' :=
        match last_usage self with
        | None => Some latest
        | Some l => if datetime_lt l latest then Some latest else Some l
        end in
      mk (period self)
         (float_add (total_cost self) (period_cost st))
         (total_tokens self)
         tokens
         blocks
         (entries_count self + Z.of_nat (length relevant))
         (loop_models_used st)
         (loop_per_model_costs st)
         first_usage'
         last_usage'
  end.

Definition total_tokens_calculated (self : t) : Z :=
  TokenCounts.total_tokens (token_counts self).
End BillingPeriodSummary.

(** ** [billing_periods.py] *)

Definition _ensure_timezone (dt : datetime_arg) (target_tz : timezone)
    : result datetime :=
  match dt with
  | naive c =>
      match target_tz with
      | tz_pytz z => Ok (mk_datetime c (localize_offset z (wall_micros c)))
      | tz_utc => Ok (mk_datetime c 0)
      end
  | aware d => astimezone d target_tz
  end.

(** The calculator after [__init__]: [user_tz] is the zone object the
    constructor resolved from the zone name. *)
Record BillingPeriodCalculator : Type := mk_calculator {
  period_type : BillingPeriodType;
  custom_start_date : option datetime_arg;
  reset_day : option Z;
  user_tz : timezone
}.

Definition _calculate_daily_boundaries (self : BillingPeriodCalculator)
    (reference_time : datetime) : result (datetime * datetime) :=
  let reset_hour := default 0 (reset_day self) in
  let* start_of_day :=
    replace reference_time None None None (Some 0) (Some 0) (Some 0) (Some 0) in
  if 0 <? reset_hour then
    let* reset_today :=
      replace start_of_day None None None (Some reset_hour) None None None in
    let* start_time :=
      if datetime_lt reference_time reset_today
      then datetime_sub_td reset_today (timedelta_days 1)
      else Ok reset_today in
    let* end_time := datetime_add start_time (timedelta_days 1) in
    Ok (start_time, end_time)
  else
    let start_time := start_of_day in
    let* end_time := datetime_add start_time (timedelta_days 1) in
    Ok (start_time, end_time).

Definition _calculate_weekly_boundaries (self : BillingPeriodCalculator)
    (reference_time : datetime) : result (datetime * datetime) :=
  let reset_weekday := default 0 (reset_day self) in
  let days_since_reset :=
    (weekday (wall reference_time) - reset_weekday) mod 7 in
  let* start_of_week :=
    datetime_sub_td reference_time (timedelta_days days_since_reset) in
  let* start_time :=
    replace start_of_week None None None (Some 0) (Some 0) (Some 0) (Some 0) in
  let* end_time := datetime_add start_time (timedelta_days 7) in
  Ok (start_time, end_time).

Definition _calculate_monthly_boundaries (self : BillingPeriodCalculator)
    (reference_time : datetime) : result (datetime * datetime) :=
  let reset_day := default 1 (reset_day self) in
  let ref := wall reference_time in
  let max_day := monthrange_ndays (year ref) (month ref) in
  let actual_reset_day := Z.min reset_day max_day in
  let* start_time :=
    if day ref <? actual_reset_day then
      let '(prev_year, prev_month) :=
        if month ref =? 1 then (year ref - 1, 12)
        else (year ref, month ref - 1) in
      let prev_max_day := monthrange_ndays prev_year prev_month in
      let prev_reset_day := Z.min reset_day prev_max_day in
      replace reference_time (Some prev_year) (Some prev_month)
        (Some prev_reset_day) (Some 0) (Some 0) (Some 0) (Some 0)
    else
      replace reference_time None None (Some actual_reset_day)
        (Some 0) (Some 0) (Some 0) (Some 0) in
  let st := wall start_time in
  let '(next_year, next_month) :=
    if month st =? 12 then (year st + 1, 1)
    else (year st, month st + 1) in
  let next_max_day := monthrange_ndays next_year next_month in
  let next_reset_day := Z.min reset_day next_max_day in
  let* end_time :=
    replace start_time (Some next_year) (Some next_month)
      (Some next_reset_day) None None None None in
  Ok (start_time, end_time).

Definition _calculate_custom_boundaries (self : BillingPeriodCalculator)
    (reference_time : datetime) : result (datetime * datetime) :=
  match custom_start_date self with
  | None => _calculate_daily_boundaries self reference_time
  | Some custom_start_date =>
      let* custom_start := _ensure_timezone custom_start_date (user_tz self) in
      let period_duration := timedelta_days 30 in
      let time_since_start := datetime_diff reference_time custom_start in
      let* periods_elapsed :=
        int_of_float (float_div (total_seconds time_since_start)
                                (total_seconds period_duration)) in
      let* start_time :=
        datetime_add custom_start (period_duration * periods_elapsed) in
      let* end_time := datetime_add start_time period_duration in
      Ok (start_time, end_time)
  end.

Definition _calculate_period_boundaries (self : BillingPeriodCalculator)
    (reference_time : datetime) : result (datetime * datetime) :=
  match period_type self with
  | DAILY => _calculate_daily_boundaries self reference_time
  | WEEKLY => _calculate_weekly_boundaries self reference_time
  | MONTHLY => _calculate_monthly_boundaries self reference_time
  | CUSTOM => _calculate_custom_boundaries self reference_time
  end.

(** [now] is the reading of [datetime.now(self.user_tz)]. *)
Definition get_current_period (self : BillingPeriodCalculator)
    (now : datetime) (reference_time : option datetime_arg)
    : result BillingPeriod.t :=
  let* reference_time :=
    match reference_time with
    | None => Ok now
    | Some r => _ensure_timezone r (user_tz self)
    end in
  let* (start_time, end_time) :=
    _calculate_period_boundaries self reference_time in
  Ok (BillingPeriod.mk (period_type self) start_time end_time true None).

Definition get_period_for_timestamp (self : BillingPeriodCalculator)
    (now : datetime) (timestamp : datetime_arg) : result BillingPeriod.t :=
  let* timestamp := _ensure_timezone timestamp (user_tz self) in
  let* (start_time, end_time) :=
    _calculate_period_boundaries self timestamp in
  let is_current := datetime_le start_time now && datetime_lt now end_time in
  Ok (BillingPeriod.mk (period_type self) start_time end_time is_current None).

(** The loop [for i in range(count)] of [get_recent_periods]: [n] iterations
    remain, [periods] is the list built so far. *)
Fixpoint recent_periods_loop (self : BillingPeriodCalculator) (now : datetime)
    (n : nat) (current_ref : datetime) (periods : list BillingPeriod.t)
    : result (list BillingPeriod.t) :=
  match n with
  | O => Ok periods
  | S n' =>
      let* period := get_period_for_timestamp self now (aware current_ref) in
      let* current_ref :=
        datetime_sub_td (BillingPeriod.start_time period)
          (timedelta_seconds 1) in
      recent_periods_loop self now n' current_ref (periods ++ [period])
  end.

Definition get_recent_periods (self : BillingPeriodCalculator) (now : datetime)
    (count : Z) (reference_time : option datetime_arg)
    : result (list BillingPeriod.t) :=
  let* reference_time :=
    match reference_time with
    | None => Ok now
    | Some r => _ensure_timezone r (user_tz self)
    end in
  recent_periods_loop self now (Z.to_nat count) reference_time [].

Definition create_period_summary (σ : store) (period : BillingPeriod.t)
    (session_blocks : list ref) : BillingPeriodSummary.t :=
  fold_left (BillingPeriodSummary.add_session_block σ) session_blocks
    (BillingPeriodSummary.new period).


(** ** Definitions used to state the theorems *)

(** The month search of [_ord2ymd], on the day-of-year [n] (from 0). *)
Definition month_search (leapyear : bool) (n : Z) : Z * Z :=
  let month := Z.shiftr (n + 50) 5 in
  let preceding :=
    _DAYS_BEFORE_MONTH month + (if (2 <? month) && leapyear then 1 else 0) in
  if n <? preceding
  then (month - 1,
        preceding - (_DAYS_IN_MONTH (month - 1)
                     + (if (month - 1 =? 2) && leapyear then 1 else 0)))
  else (month, preceding).

(** What the month search must deliver: a month, the days before it, and
    a day within it. *)
Definition month_search_check (leapyear : bool) (n : Z) : bool :=
  let '(m, p) := month_search leapyear n in
  (1 <=? m) && (m <=? 12)
  && (p =? _DAYS_BEFORE_MONTH m + (if (2 <? m) && leapyear then 1 else 0))
  && (0 <=? n - p)
  && (n - p <? _DAYS_IN_MONTH m + (if (m =? 2) && leapyear then 1 else 0)).

(** A date [_check_date_fields] accepts. *)
Definition valid_date (y mo d : Z) : Prop :=
  MINYEAR <= y <= MAXYEAR /\ 1 <= mo <= 12 /\ 1 <= d <= _days_in_month y mo.

(** The values the constructor can build: every [datetime] of a run of the
    program is one. *)
Definition wf_naive (c : naive_datetime) : Prop :=
  check_fields (year c) (month c) (day c) (hour c) (minute c) (second c)
    (microsecond c) = true.

Definition wf_datetime (d : datetime) : Prop := wf_naive (wall d).

(** The time of day in microseconds. *)
Definition time_micros (c : naive_datetime) : Z :=
  (hour c * 3600 + minute c * 60 + second c) * US_PER_SECOND + microsecond c.

(** [t]'s date at the given time of day, with the offset [t] carries. *)
Definition at_time (t : datetime) (h mi s us : Z) : datetime :=
  mk_datetime
    (mk_naive (year (wall t)) (month (wall t)) (day (wall t)) h mi s us)
    (utcoffset t).

(** [datetime(y, mo, d, h, mi, s, tzinfo=timezone.utc)], as the tests build
    their timestamps. *)
Definition utc (y mo d h mi s : Z) : datetime :=
  mk_datetime (mk_naive y mo d h mi s 0) 0.

(** The no-offset Daily rule, as the specification words it: the period
    starts on the reference date at 00:00:00.000, with the offset the
    reference carries, and ends 24 hours later. *)
Definition midnight_rule (boundaries : result (datetime * datetime))
    (t : datetime) : Prop :=
  exists end_time,
    boundaries = Ok (at_time t 0 0 0 0, end_time)
    /\ wf_datetime end_time
    /\ utcoffset end_time = utcoffset t
    /\ utc_micros end_time = utc_micros (at_time t 0 0 0 0) + US_PER_DAY.

(** The Daily rule with reset hour [H], as the specification words it:
    [reset_today] is the reference date at [H]:00:00, with the offset the
    reference carries; the period starts there, or 24 hours earlier when
    the reference is before it, and lasts 24 hours. *)
Definition hour_rule (boundaries : result (datetime * datetime))
    (t : datetime) (H : Z) : Prop :=
  let reset_today := at_time t H 0 0 0 in
  exists start_time end_time,
    boundaries = Ok (start_time, end_time)
    /\ wf_datetime start_time /\ wf_datetime end_time
    /\ utcoffset start_time = utcoffset t
    /\ utcoffset end_time = utcoffset t
    /\ utc_micros start_time
       = (if datetime_lt t reset_today
          then utc_micros reset_today - US_PER_DAY
          else utc_micros reset_today)
    /\ utc_micros end_time = utc_micros start_time + US_PER_DAY.




(** The entries of a list whose timestamps a period contains. *)
Definition in_period (p : BillingPeriod.t) (es : list UsageEntry.t)
    : list UsageEntry.t :=
  filter (fun e =>
            BillingPeriod.contains_timestamp p (UsageEntry.timestamp e) = true)
    es.

(** All in-period entries of a sequence of session blocks, in order. *)
Definition in_period_entries (σ : store) (p : BillingPeriod.t)
    (blocks : list ref) : list UsageEntry.t :=
  concat (map (fun b => in_period p (SessionBlock.entries (σ b))) blocks).

Definition sum_of (f : UsageEntry.t -> Z) (es : list UsageEntry.t) : Z :=
  foldr (fun e acc => f e + acc) 0 es.

(** The distinct elements of a list in the order of their first
    occurrence. *)
Definition first_seen (l : list string) : list string :=
  reverse (remove_dups (reverse l)).

(** Float addition is not associative: a sum is taken in a fixed order,
    here from the left, starting from [0.0]. *)
Definition float_sum (l : list float) : float :=
  fold_left float_add l float_zero.

(** The cost total as the aggregation adds it up: one left-to-right sum
    per block that has an in-period entry, each added to the running
    total. *)
Definition cost_by_block (σ : store) (p : BillingPeriod.t)
    (blocks : list ref) : float :=
  fold_left
    (fun acc b =>
       match in_period p (SessionBlock.entries (σ b)) with
       | [] => acc
       | es => float_add acc (float_sum (map UsageEntry.cost_usd es))
       end)
    blocks float_zero.

(** The float literal with decimal digits [m] and [places] digits after
    the point: the binary64 value nearest to [m / 10^places]. *)
Definition decimal (m places : Z) : float := int_truediv m (10 ^ places).

Definition float_eqb (x y : float) : bool := SFeqb x y.
Definition float_ltb (x y : float) : bool := SFltb x y.
Definition float_abs_diff (x y : float) : float :=
  SFabs (SFsub prec emax x y).

(** The data of [test_period_summary_creation]. *)
Definition test_period : BillingPeriod.t :=
  BillingPeriod.mk DAILY (utc 2024 1 15 0 0 0) (utc 2024 1 16 0 0 0) true None.

Definition test_entry1 : UsageEntry.t :=
  UsageEntry.mk (utc 2024 1 15 10 0 0) 100 50 0 0 (decimal 5 2)
    "claude-3-sonnet" "" "".

Definition test_entry2 : UsageEntry.t :=
  UsageEntry.mk (utc 2024 1 15 12 0 0) 200 100 0 0 (decimal 10 2)
    "claude-3-sonnet" "" "".

Definition test_block : SessionBlock.t :=
  SessionBlock.mk "test-session" (utc 2024 1 15 10 0 0) (utc 2024 1 15 15 0 0)
    [test_entry1; test_entry2] (TokenCounts.mk 300 150 0 0) (decimal 15 2).

Definition test_store : store := fun _ => test_block.

Definition test_summary : BillingPeriodSummary.t :=
  create_period_summary test_store test_period [1%positive].

(** The example of claim C7 as the specification states it. *)
Definition aggregation_example_as_stated : Prop :=
  float_eqb (BillingPeriodSummary.total_cost test_summary) (decimal 15 2) = true
  /\ BillingPeriodSummary.total_tokens_calculated test_summary = 450
  /\ BillingPeriodSummary.entries_count test_summary = 2
  /\ BillingPeriodSummary.models_used test_summary = ["claude-3-sonnet"%string].

(** Claim C9 as stated: after the call the summary holds no reference to
    the passed session block. *)
Definition no_retention_as_stated (σ : store) (s : BillingPeriodSummary.t)
    (b : ref) : Prop :=
  b ∉ BillingPeriodSummary.session_blocks s ->
  b ∉ BillingPeriodSummary.session_blocks
        (BillingPeriodSummary.add_session_block σ s b).

(** Adding one model name to [models_used]. *)
Definition add_model (used : list string) (m : string) : list string :=
  if negb (String.eqb m "") && negb (bool_decide (m ∈ used))
  then used ++ [m]
  else used.

(** A block whose only entry lies on the day before [test_period]. *)
Definition outside_entry : UsageEntry.t :=
  UsageEntry.mk (utc 2024 1 14 10 0 0) 70 30 0 0 (decimal 2 2)
    "claude-3-opus" "" "".

Definition outside_block : SessionBlock.t :=
  SessionBlock.mk "outside" (utc 2024 1 14 10 0 0) (utc 2024 1 14 15 0 0)
    [outside_entry] (TokenCounts.mk 70 30 0 0) (decimal 2 2).

(** A block that straddles the start of [test_period]: the entries of
    [test_block] after one entry of the day before. *)
Definition straddling_block : SessionBlock.t :=
  SessionBlock.mk "straddling" (utc 2024 1 14 10 0 0) (utc 2024 1 15 15 0 0)
    [outside_entry; test_entry1; test_entry2] (TokenCounts.mk 370 180 0 0)
    (decimal 17 2).

Definition two_block_store : store :=
  fun r => if (r =? 1)%positive then test_block else straddling_block.

(** The example of claim C2 as the specification states it. *)
Definition monthly_example_as_stated (t : datetime) : Prop :=
  _calculate_period_boundaries (mk_calculator MONTHLY None (Some 31) tz_utc) t
  = Ok (utc 2024 2 29 0 0 0, utc 2024 3 31 0 0 0).

(** The Custom rule as the specification words it, with the mathematical
    floor: [periods_elapsed = floor((t - anchor) / 30 days)]. *)
Definition custom_floor_rule (anchor t : datetime)
    : result (datetime * datetime) :=
  let period_duration := timedelta_days 30 in
  let periods_elapsed := datetime_diff t anchor / period_duration in
  let* start_time := datetime_add anchor (period_duration * periods_elapsed) in
  let* end_time := datetime_add start_time period_duration in
  Ok (start_time, end_time).

(** A Custom calculator anchored at 2024-01-10T00:00:00Z, as in
    [test_custom_period_calculation]. *)
Definition custom_calculator : BillingPeriodCalculator :=
  mk_calculator CUSTOM (Some (aware (utc 2024 1 10 0 0 0))) None tz_utc.

(** The period [get_period_for_timestamp] builds from two boundaries when
    the clock reads [now]. *)
Definition period_at (now : datetime) (type : BillingPeriodType)
    (start_time end_time : datetime) : BillingPeriod.t :=
  BillingPeriod.mk type start_time end_time
    (datetime_le start_time now && datetime_lt now end_time) None.

(** The first period of a Custom calculator anchored at
    2024-01-10T00:00:00Z. *)
Definition anchor_period (now : datetime) : BillingPeriod.t :=
  period_at now CUSTOM (utc 2024 1 10 0 0 0) (utc 2024 2 9 0 0 0).

(** The reset offsets each period type accepts: an hour up to 23 for Daily
    (and for Custom without anchor, which falls back to it), any weekday
    number for Weekly (it is reduced modulo 7), a day of month from 1 for
    Monthly (it is clamped to the month's length). *)
Definition reset_day_accepted (self : BillingPeriodCalculator) : Prop :=
  match period_type self with
  | DAILY =>
      reset_day self = None \/ exists h, reset_day self = Some h /\ h <= 23
  | WEEKLY => True
  | MONTHLY =>
      reset_day self = None \/ exists D, reset_day self = Some D /\ 1 <= D
  | CUSTOM =>
      custom_start_date self = None
      /\ (reset_day self = None \/ exists h, reset_day self = Some h /\ h <= 23)
  end.

(** One microsecond before the end of the 7000th thirty-day period after
    the anchor 2024-01-10T00:00:00Z. *)
Definition far_reference : datetime :=
  mk_datetime (mk_naive 2598 12 25 23 59 59 999999) 0.

(** A zone one hour east of UTC until 2024-03-31T01:00:00Z and two hours
    east from then on, as Central European time is in the spring of 2024. *)
Definition spring_forward_zone : pytz_zone :=
  mk_zone
    (fun u => if u <? utc_micros (utc 2024 3 31 1 0 0)
              then 3600 * US_PER_SECOND else 7200 * US_PER_SECOND)
    (fun w => if w <? wall_micros (mk_naive 2024 3 31 2 0 0 0)
              then 3600 * US_PER_SECOND else 7200 * US_PER_SECOND).

(** The ordinal of the reset day of a month: the configured day, clamped
    to the month's length. *)
Definition reset_ordinal (D y mo : Z) : Z :=
  _ymd2ord y mo (Z.min D (_days_in_month y mo)).

(** Consecutive periods of a most-recent-first series: each ends where the
    one before it in the list starts, and starts earlier. *)
Definition contiguous (ps : list BillingPeriod.t) : Prop :=
  forall (i : nat) (p q : BillingPeriod.t),
    ps !! i = Some p -> ps !! S i = Some q ->
    BillingPeriod.end_time q = BillingPeriod.start_time p
    /\ datetime_lt (BillingPeriod.start_time q) (BillingPeriod.start_time p)
       = true.
(** ** Further methods of [billing_periods.py] and [models.py] *)


(** The properties [duration_days] and [duration_hours] of a
    [BillingPeriod]: a float divided by an [int], which Python converts to
    a float first (exactly, for these two constants). *)
Definition duration_days (self : BillingPeriod.t) : float :=
  float_div
    (total_seconds
       (datetime_diff (BillingPeriod.end_time self)
          (BillingPeriod.start_time self)))
    (exact_of_int (24 * 3600)).

Definition duration_hours (self : BillingPeriod.t) : float :=
  float_div
    (total_seconds
       (datetime_diff (BillingPeriod.end_time self)
          (BillingPeriod.start_time self)))
    (exact_of_int 3600).


(** The length in days of the periods of a calculator, where the code
    fixes it: one day for Daily (and for Custom without anchor), seven for
    Weekly, thirty for Custom with an anchor. *)
Definition nominal_days (self : BillingPeriodCalculator) : option Z :=
  match period_type self with
  | DAILY => Some 1
  | WEEKLY => Some 7
  | MONTHLY => None
  | CUSTOM =>
      match custom_start_date self with
      | Some _ => Some 30
      | None => Some 1
      end
  end.

(** No instant lies in two periods of a list. *)
Definition pairwise_disjoint (ps : list BillingPeriod.t) : Prop :=
  forall (i j : nat) (p q : BillingPeriod.t) (ts : datetime),
    i <> j -> ps !! i = Some p -> ps !! j = Some q ->
    BillingPeriod.contains_timestamp p ts = true ->
    BillingPeriod.contains_timestamp q ts = false.

(** Whether a block has an entry inside a period. *)
Definition has_usage_in (σ : store) (p : BillingPeriod.t) (b : ref) : bool :=
  match in_period p (SessionBlock.entries (σ b)) with
  | [] => false
  | _ :: _ => true
  end.

(** The costs of the entries of one model, in order. *)
Definition costs_of_model (m : string) (es : list UsageEntry.t) : list float :=
  map UsageEntry.cost_usd (filter (fun e => UsageEntry.model e = m) es).

(** What a dictionary slot holds after the costs [cs] were added to it one
    by one: nothing when there were none, else the first cost with the
    others added from the left. *)
Definition accumulate (init : option float) (cs : list float) : option float :=
  fold_left
    (fun acc c =>
       Some (match acc with
             | Some x => float_add x c
             | None => c
             end))
    cs init.

Definition running_sum (cs : list float) : option float :=
  match cs with
  | [] => None
  | c :: cs' => Some (fold_left float_add cs' c)
  end.



(** ** [normalize_model_name]

    A [str] is modelled by a [string] of ASCII characters: [lower] maps
    the letters [A] to [Z] and leaves every other character alone, as
    [str.lower] does on ASCII text.  Model names with other characters
    are outside the model. *)

Definition ascii_lower (c : Ascii.ascii) : Ascii.ascii :=
  let n := Ascii.nat_of_ascii c in
  if (65 <=? n)%nat && (n <=? 90)%nat then Ascii.ascii_of_nat (n + 32) else c.

Fixpoint lower (s : string) : string :=
  match s with
  | EmptyString => EmptyString
  | String c s' => String (ascii_lower c) (lower s')
  end.

Fixpoint is_ascii (s : string) : bool :=
  match s with
  | EmptyString => true
  | String c s' => (Ascii.nat_of_ascii c <? 128)%nat && is_ascii s'
  end.

Fixpoint starts_with (sub s : string) : bool :=
  match sub, s with
  | EmptyString, _ => true
  | String _ _, EmptyString => false
  | String a sub', String b s' => Ascii.eqb a b && starts_with sub' s'
  end.

(** [sub in s] *)
Fixpoint str_in (sub s : string) : bool :=
  starts_with sub s
  || match s with
     | EmptyString => false
     | String _ s' => str_in sub s'
     end.

Definition normalize_model_name (model : string) : string :=
  if String.eqb model "" then ""%string
  else
    let model_lower := lower model in
    if str_in "claude-opus-4-" model_lower
       || str_in "claude-sonnet-4-" model_lower
       || str_in "claude-haiku-4-" model_lower
       || str_in "sonnet-4-" model_lower
       || str_in "opus-4-" model_lower
       || str_in "haiku-4-" model_lower
    then model_lower
    else if str_in "opus" model_lower then
      if str_in "4-" model_lower then model_lower
      else "claude-3-opus"%string
    else if str_in "sonnet" model_lower then
      if str_in "4-" model_lower then model_lower
      else if str_in "3.5" model_lower || str_in "3-5" model_lower
           then "claude-3-5-sonnet"%string
           else "claude-3-sonnet"%string
    else if str_in "haiku" model_lower then
      if str_in "3.5" model_lower || str_in "3-5" model_lower
      then "claude-3-5-haiku"%string
      else "claude-3-haiku"%string
    else model.

(** A name that mentions one of the three model families, in any case. *)
Definition names_a_family (model : string) : bool :=
  str_in "opus" (lower model) || str_in "sonnet" (lower model)
  || str_in "haiku" (lower model).

(** The property [average_cost_per_day] of a [BillingPeriodSummary]. *)
Definition average_cost_per_day (self : BillingPeriodSummary.t) : float :=
  let days := duration_days (BillingPeriodSummary.period self) in
  if float_ltb float_zero days
  then float_div (BillingPeriodSummary.total_cost self) days
  else float_zero.

(** * Theorems *)

(** ** The calendar *)

Ltac zdm := Z.div_mod_to_equations; lia.

Lemma days_before_year_decomp (a b c e : Z) :
  0 <= b <= 3 -> 0 <= c <= 24 -> 0 <= e <= 3 ->
  _days_before_year (400 * a + 100 * b + 4 * c + e + 1)
  = 146097 * a + 36524 * b + 1461 * c + 365 * e.
Proof.
  intros Hb Hc He. unfold _days_before_year. cbv zeta.
  replace (400 * a + 100 * b + 4 * c + e + 1 - 1)
    with (400 * a + 100 * b + 4 * c + e) by lia.
  zdm.
Qed.

Lemma is_leap_decomp (a b c e : Z) :
  0 <= b <= 3 -> 0 <= c <= 24 -> 0 <= e <= 3 ->
  _is_leap (400 * a + 100 * b + 4 * c + e + 1)
  = (e =? 3) && (negb (c =? 24) || (b =? 3)).
Proof.
  intros Hb Hc He. unfold _is_leap.
  set (y := 400 * a + 100 * b + 4 * c + e + 1).
  assert (H4 : y mod 4 = 0 <-> e = 3) by (subst y; split; intros H; zdm).
  assert (H100 : y mod 100 = 0 <-> (c = 24 /\ e = 3))
    by (subst y; split; intros H; zdm).
  assert (H400 : y mod 400 = 0 <-> (b = 3 /\ c = 24 /\ e = 3))
    by (subst y; split; intros H; zdm).
  destruct (Z.eqb_spec (y mod 4) 0), (Z.eqb_spec (y mod 100) 0),
    (Z.eqb_spec (y mod 400) 0), (Z.eqb_spec e 3), (Z.eqb_spec c 24),
    (Z.eqb_spec b 3); cbn; try reflexivity; exfalso; tauto.
Qed.

(** The month search is checked on each day of the year. *)
Lemma month_search_checked (leapyear : bool) (n : Z) :
  0 <= n < 365 + (if leapyear then 1 else 0) ->
  month_search_check leapyear n = true.
Proof.
  intros Hn.
  assert (Hall : forallb (fun k => month_search_check leapyear (Z.of_nat k))
                   (seq 0 (if leapyear then 366 else 365)) = true)
    by (destruct leapyear; vm_compute; reflexivity).
  rewrite forallb_forall in Hall.
  rewrite <- (Z2Nat.id n) by lia. apply Hall, in_seq.
  destruct leapyear; lia.
Qed.

Lemma month_search_spec (leapyear : bool) (n : Z) :
  0 <= n < 365 + (if leapyear then 1 else 0) ->
  let '(m, p) := month_search leapyear n in
  1 <= m <= 12
  /\ p = _DAYS_BEFORE_MONTH m + (if (2 <? m) && leapyear then 1 else 0)
  /\ 0 <= n - p < _DAYS_IN_MONTH m + (if (m =? 2) && leapyear then 1 else 0).
Proof.
  intros Hn. pose proof (month_search_checked leapyear n Hn) as H.
  unfold month_search_check in H. destruct (month_search leapyear n) as [m p].
  rewrite !andb_true_iff in H. lia.
Qed.

(** [_ord2ymd] returns a date of the calendar whose ordinal is its
    argument. *)
Lemma ord2ymd_spec (n : Z) :
  1 <= n ->
  let '(y, m, d) := _ord2ymd n in
  _ymd2ord y m d = n
  /\ 1 <= y /\ (n <= _MAXORDINAL -> y <= MAXYEAR)
  /\ 1 <= m <= 12 /\ 1 <= d <= _days_in_month y m.
Proof.
  intros Hn. unfold _ord2ymd. cbv zeta.
  unfold _DI400Y, _DI100Y, _DI4Y, _MAXORDINAL, MAXYEAR.
  set (a := (n - 1) / 146097). set (r1 := (n - 1) mod 146097).
  set (b := r1 / 36524). set (r2 := r1 mod 36524).
  set (c := r2 / 1461). set (r3 := r2 mod 1461).
  set (e := r3 / 365). set (r := r3 mod 365).
  assert (Ha : n - 1 = 146097 * a + r1 /\ 0 <= r1 < 146097 /\ 0 <= a)
    by (subst a r1; zdm).
  assert (Hb : r1 = 36524 * b + r2 /\ 0 <= r2 < 36524 /\ 0 <= b <= 4
               /\ (b = 4 -> r2 = 0))
    by (subst b r2; zdm).
  assert (Hc : r2 = 1461 * c + r3 /\ 0 <= r3 < 1461 /\ 0 <= c <= 24
               /\ (c = 24 -> r3 < 1460))
    by (subst c r3; zdm).
  assert (He : r3 = 365 * e + r /\ 0 <= r < 365 /\ 0 <= e <= 4
               /\ (e = 4 -> r = 0))
    by (subst e r; zdm).
  clearbody a r1 b r2 c r3 e r.
  destruct (Z.eqb_spec e 4) as [He4 | He4]; cbn [orb].
  - (* the last day of a leap year of the four-year cycle *)
    assert (b <= 3) by lia. assert (c <= 23) by lia.
    replace (a * 400 + 1 + (b * 100 + c * 4 + e) - 1)
      with (400 * a + 100 * b + 4 * c + 3 + 1) by lia.
    unfold _ymd2ord, _days_before_month, _days_in_month.
    rewrite days_before_year_decomp, is_leap_decomp by lia.
    replace (c =? 24) with false by (symmetry; apply Z.eqb_neq; lia).
    cbn. lia.
  - destruct (Z.eqb_spec b 4) as [Hb4 | Hb4].
    + (* the last day of the 400-year cycle *)
      replace (a * 400 + 1 + (b * 100 + c * 4 + e) - 1)
        with (400 * a + 100 * 3 + 4 * 24 + 3 + 1) by lia.
      unfold _ymd2ord, _days_before_month, _days_in_month.
      rewrite days_before_year_decomp, is_leap_decomp by lia.
      cbn. lia.
    + assert (Hleap : (e =? 3) && (negb (c =? 24) || (b =? 3))
                      = _is_leap (400 * a + 100 * b + 4 * c + e + 1))
        by (rewrite is_leap_decomp; [reflexivity | lia ..]).
      replace (a * 400 + 1 + (b * 100 + c * 4 + e))
        with (400 * a + 100 * b + 4 * c + e + 1) by lia.
      rewrite Hleap.
      set (y := 400 * a + 100 * b + 4 * c + e + 1).
      pose proof (month_search_spec (_is_leap y) r) as Hm.
      match goal with
      | |- context [if ?t then ?u else ?v] =>
          match t with
          | (r <? _) =>
              change (if t then u else v) with (month_search (_is_leap y) r)
          end
      end.
      destruct (month_search (_is_leap y) r) as [mo p].
      destruct Hm as (Hmo & Hp & Hd); [destruct (_is_leap y); lia |].
      unfold _ymd2ord, _days_before_month, _days_in_month.
      rewrite <- Hp. subst y.
      rewrite days_before_year_decomp by lia.
      repeat (split; [lia |]).
      destruct (Z.eqb_spec mo 2) as [-> | Hne], (_is_leap _);
        cbn [andb] in *; cbn in Hd |- *; lia.
Qed.

Lemma days_before_year_succ (y : Z) :
  _days_before_year (y + 1)
  = _days_before_year y + 365 + (if _is_leap y then 1 else 0).
Proof.
  unfold _days_before_year, _is_leap. cbv zeta.
  replace (y + 1 - 1) with y by lia.
  destruct (Z.eqb_spec (y mod 4) 0), (Z.eqb_spec (y mod 100) 0),
    (Z.eqb_spec (y mod 400) 0); cbn; zdm.
Qed.

Lemma days_before_year_mono (y y' : Z) :
  y <= y' -> _days_before_year y <= _days_before_year y'.
Proof. unfold _days_before_year. cbv zeta. intros H. zdm. Qed.

Lemma month_cases (mo : Z) :
  1 <= mo <= 12 ->
  mo = 1 \/ mo = 2 \/ mo = 3 \/ mo = 4 \/ mo = 5 \/ mo = 6 \/ mo = 7
  \/ mo = 8 \/ mo = 9 \/ mo = 10 \/ mo = 11 \/ mo = 12.
Proof. lia. Qed.

Ltac month_split H :=
  apply month_cases in H;
  repeat (destruct H as [H | H]; [subst |]); [.. | subst].

Lemma days_in_month_bounds (y mo : Z) :
  1 <= mo <= 12 -> 28 <= _days_in_month y mo <= 31.
Proof.
  intros H. unfold _days_in_month.
  month_split H; destruct (_is_leap y); cbn; lia.
Qed.

Lemma day_of_year_bounds (y mo d : Z) :
  1 <= mo <= 12 -> 1 <= d <= _days_in_month y mo ->
  1 <= _days_before_month y mo + d <= 365 + (if _is_leap y then 1 else 0).
Proof.
  intros H. unfold _days_in_month, _days_before_month.
  month_split H; destruct (_is_leap y); cbn; lia.
Qed.

Lemma ymd2ord_bounds (y mo d : Z) :
  valid_date y mo d -> 1 <= _ymd2ord y mo d <= _MAXORDINAL.
Proof.
  intros (Hy & Hm & Hd). unfold MINYEAR, MAXYEAR in Hy.
  pose proof (day_of_year_bounds y mo d Hm Hd) as Hdoy.
  pose proof (days_before_year_succ y) as Hs.
  pose proof (days_before_year_mono 1 y ltac:(lia)) as H1.
  pose proof (days_before_year_mono (y + 1) 10000 ltac:(lia)) as H2.
  change (_days_before_year 1) with 0 in H1.
  change (_days_before_year 10000) with 3652059 in H2.
  unfold _ymd2ord, _MAXORDINAL. lia.
Qed.

(** Two dates with the same ordinal are the same date. *)
Lemma ymd2ord_inj (y mo d y' mo' d' : Z) :
  valid_date y mo d -> valid_date y' mo' d' ->
  _ymd2ord y mo d = _ymd2ord y' mo' d' ->
  y = y' /\ mo = mo' /\ d = d'.
Proof.
  intros (_ & Hm & Hd) (_ & Hm' & Hd') Heq. unfold _ymd2ord in Heq.
  pose proof (day_of_year_bounds y mo d Hm Hd) as Hdoy.
  pose proof (day_of_year_bounds y' mo' d' Hm' Hd') as Hdoy'.
  pose proof (days_before_year_succ y) as Hs.
  pose proof (days_before_year_succ y') as Hs'.
  assert (Hy : y = y').
  { destruct (Z.lt_trichotomy y y') as [Hlt | [Heqy | Hgt]]; [| exact Heqy |].
    - pose proof (days_before_year_mono (y + 1) y' ltac:(lia)). lia.
    - pose proof (days_before_year_mono (y' + 1) y ltac:(lia)). lia. }
  subst y'. split; [reflexivity |].
  assert (Hdoyeq : _days_before_month y mo + d = _days_before_month y mo' + d')
    by lia.
  clear - Hm Hd Hm' Hd' Hdoyeq.
  unfold _days_in_month, _days_before_month in *.
  month_split Hm; month_split Hm'; destruct (_is_leap y);
    cbn in Hd, Hd', Hdoyeq; lia.
Qed.

Lemma ord2ymd_valid (n : Z) :
  1 <= n <= _MAXORDINAL ->
  let '(y, mo, d) := _ord2ymd n in valid_date y mo d /\ _ymd2ord y mo d = n.
Proof.
  intros Hn. pose proof (ord2ymd_spec n ltac:(lia)) as H.
  destruct (_ord2ymd n) as [[y mo] d]. unfold valid_date, MINYEAR.
  intuition lia.
Qed.

Lemma ord2ymd_ymd2ord (y mo d : Z) :
  valid_date y mo d -> _ord2ymd (_ymd2ord y mo d) = (y, mo, d).
Proof.
  intros Hv. pose proof (ymd2ord_bounds y mo d Hv) as Hb.
  pose proof (ord2ymd_valid _ Hb) as H.
  destruct (_ord2ymd (_ymd2ord y mo d)) as [[y' mo'] d'].
  destruct H as [Hv' Heq].
  destruct (ymd2ord_inj _ _ _ _ _ _ Hv' Hv Heq) as (-> & -> & ->).
  reflexivity.
Qed.

(** ** [datetime] arithmetic *)

Lemma check_fields_iff (y mo d h mi s us : Z) :
  check_fields y mo d h mi s us = true
  <-> valid_date y mo d /\ 0 <= h <= 23 /\ 0 <= mi <= 59 /\ 0 <= s <= 59
      /\ 0 <= us <= 999999.
Proof.
  unfold check_fields, valid_date. rewrite !andb_true_iff, !Z.leb_le. tauto.
Qed.

Lemma wf_naive_iff (c : naive_datetime) :
  wf_naive c
  <-> valid_date (year c) (month c) (day c) /\ 0 <= hour c <= 23
      /\ 0 <= minute c <= 59 /\ 0 <= second c <= 59
      /\ 0 <= microsecond c <= 999999.
Proof. apply check_fields_iff. Qed.

Lemma datetime_new_ok (y mo d h mi s us : Z) :
  check_fields y mo d h mi s us = true ->
  datetime_new y mo d h mi s us = Ok (mk_naive y mo d h mi s us).
Proof. intros H. unfold datetime_new. rewrite H. reflexivity. Qed.

Lemma wall_micros_split (c : naive_datetime) :
  wall_micros c = toordinal c * US_PER_DAY + time_micros c.
Proof. unfold wall_micros, time_micros, US_PER_DAY, US_PER_SECOND. lia. Qed.

Lemma time_micros_bounds (c : naive_datetime) :
  wf_naive c -> 0 <= time_micros c < US_PER_DAY.
Proof.
  rewrite wf_naive_iff. unfold time_micros, US_PER_DAY, US_PER_SECOND. lia.
Qed.

Lemma toordinal_bounds (c : naive_datetime) :
  wf_naive c -> 1 <= toordinal c <= _MAXORDINAL.
Proof. rewrite wf_naive_iff. intros (Hv & _). apply ymd2ord_bounds, Hv. Qed.

Lemma of_wall_micros_compose (days h mi s us : Z) :
  0 <= h <= 23 -> 0 <= mi <= 59 -> 0 <= s <= 59 -> 0 <= us <= 999999 ->
  of_wall_micros (days * US_PER_DAY
                  + ((h * 3600 + mi * 60 + s) * US_PER_SECOND + us))
  = let '(y, mo, d) := _ord2ymd days in mk_naive y mo d h mi s us.
Proof.
  intros Hh Hmi Hs Hus. unfold of_wall_micros. cbv zeta.
  set (t := days * US_PER_DAY
            + ((h * 3600 + mi * 60 + s) * US_PER_SECOND + us)).
  assert (Hd : t / US_PER_DAY = days)
    by (subst t; unfold US_PER_DAY, US_PER_SECOND; zdm).
  assert (Hr : t mod US_PER_DAY
               = (h * 3600 + mi * 60 + s) * US_PER_SECOND + us)
    by (subst t; unfold US_PER_DAY, US_PER_SECOND; zdm).
  rewrite Hd, Hr.
  assert (Hsec : ((h * 3600 + mi * 60 + s) * US_PER_SECOND + us)
                 / US_PER_SECOND = h * 3600 + mi * 60 + s)
    by (unfold US_PER_SECOND; zdm).
  assert (Hus' : ((h * 3600 + mi * 60 + s) * US_PER_SECOND + us)
                 mod US_PER_SECOND = us)
    by (unfold US_PER_SECOND; zdm).
  rewrite Hsec, Hus'.
  assert (Hh' : (h * 3600 + mi * 60 + s) / 3600 = h) by zdm.
  assert (Hrem : (h * 3600 + mi * 60 + s) mod 3600 = mi * 60 + s) by zdm.
  rewrite Hh', Hrem.
  assert (Hmi' : (mi * 60 + s) / 60 = mi) by zdm.
  assert (Hs' : (mi * 60 + s) mod 60 = s) by zdm.
  rewrite Hmi', Hs'. reflexivity.
Qed.

Lemma of_wall_micros_wall_micros (c : naive_datetime) :
  wf_naive c -> of_wall_micros (wall_micros c) = c.
Proof.
  intros Hwf. pose proof Hwf as Hwf'. rewrite wf_naive_iff in Hwf'.
  destruct Hwf' as (Hv & Hh & Hmi & Hs & Hus).
  rewrite wall_micros_split. unfold time_micros.
  rewrite of_wall_micros_compose by assumption.
  unfold toordinal. rewrite ord2ymd_ymd2ord by assumption.
  destruct c; reflexivity.
Qed.

Lemma of_wall_micros_spec (t : Z) :
  1 <= t / US_PER_DAY <= _MAXORDINAL ->
  wf_naive (of_wall_micros t) /\ wall_micros (of_wall_micros t) = t.
Proof.
  intros Hd.
  set (days := t / US_PER_DAY) in *.
  set (rest := t mod US_PER_DAY).
  set (secs := rest / US_PER_SECOND). set (us := rest mod US_PER_SECOND).
  set (h := secs / 3600). set (rem := secs mod 3600).
  set (mi := rem / 60). set (s := rem mod 60).
  assert (Ht : t = days * US_PER_DAY
                   + ((h * 3600 + mi * 60 + s) * US_PER_SECOND + us)
               /\ 0 <= h <= 23 /\ 0 <= mi <= 59 /\ 0 <= s <= 59
               /\ 0 <= us <= 999999).
  { assert (H1 : t = days * US_PER_DAY + rest /\ 0 <= rest < US_PER_DAY)
      by (subst days rest; unfold US_PER_DAY, US_PER_SECOND; zdm).
    assert (H2 : rest = secs * US_PER_SECOND + us /\ 0 <= us <= 999999)
      by (subst secs us; unfold US_PER_SECOND; zdm).
    assert (H3 : secs = h * 3600 + rem /\ 0 <= rem < 3600)
      by (subst h rem; zdm).
    assert (H4 : rem = mi * 60 + s /\ 0 <= s <= 59) by (subst mi s; zdm).
    clearbody days rest secs us h rem mi s.
    unfold US_PER_DAY, US_PER_SECOND in *. lia. }
  destruct Ht as (Ht & Hh & Hmi & Hs & Hus).
  clearbody days h mi s us. rewrite Ht.
  rewrite of_wall_micros_compose by assumption.
  pose proof (ord2ymd_valid days Hd) as Hv.
  destruct (_ord2ymd days) as [[y mo] d]. destruct Hv as [Hv Hord].
  split.
  - apply wf_naive_iff. cbn. tauto.
  - unfold wall_micros, toordinal. cbn. rewrite Hord.
    unfold US_PER_DAY, US_PER_SECOND. lia.
Qed.

(** Adding a [timedelta] adds its microseconds to the wall-clock reading,
    as long as the result is a day of the calendar. *)
Lemma naive_add_spec (c : naive_datetime) (td : timedelta) :
  wf_naive c ->
  US_PER_DAY <= wall_micros c + td < (_MAXORDINAL + 1) * US_PER_DAY ->
  exists c', naive_add c td = Ok c' /\ wf_naive c'
             /\ wall_micros c' = wall_micros c + td.
Proof.
  intros Hwf Hr. unfold naive_add. cbv zeta.
  assert (Hd : 1 <= (wall_micros c + td) / US_PER_DAY <= _MAXORDINAL)
    by (unfold US_PER_DAY, US_PER_SECOND, _MAXORDINAL in *; zdm).
  replace ((0 <? (wall_micros c + td) / US_PER_DAY)
           && ((wall_micros c + td) / US_PER_DAY <=? _MAXORDINAL)) with true
    by (symmetry; apply andb_true_iff; split;
        [apply Z.ltb_lt | apply Z.leb_le]; lia).
  destruct (of_wall_micros_spec _ Hd) as [Hw Hm]. eauto.
Qed.

Lemma naive_add_overflow (c : naive_datetime) (td : timedelta) :
  ~ (US_PER_DAY <= wall_micros c + td < (_MAXORDINAL + 1) * US_PER_DAY) ->
  naive_add c td = Raise OverflowError.
Proof.
  intros Hr. unfold naive_add. cbv zeta.
  destruct (Z.ltb_spec 0 ((wall_micros c + td) / US_PER_DAY)) as [H1 | H1];
    [| reflexivity].
  destruct (Z.leb_spec ((wall_micros c + td) / US_PER_DAY) _MAXORDINAL)
    as [H2 | H2]; [| reflexivity].
  exfalso. apply Hr. unfold US_PER_DAY, US_PER_SECOND, _MAXORDINAL in *. zdm.
Qed.

Lemma wf_naive_eq (c c' : naive_datetime) :
  wf_naive c -> wf_naive c' -> wall_micros c = wall_micros c' -> c = c'.
Proof.
  intros H H' Heq. rewrite <- (of_wall_micros_wall_micros c H).
  rewrite <- (of_wall_micros_wall_micros c' H'). congruence.
Qed.

(** Two valid values with the same offset that denote the same instant are
    equal. *)
Lemma datetime_eq (a b : datetime) :
  wf_datetime a -> wf_datetime b -> utcoffset a = utcoffset b ->
  utc_micros a = utc_micros b -> a = b.
Proof.
  intros Ha Hb Hoff Hutc. unfold utc_micros in Hutc.
  destruct a as [wa oa], b as [wb ob]. cbn in *. subst ob.
  f_equal. apply wf_naive_eq; [assumption .. | lia].
Qed.

(** ** Daily boundaries *)

Lemma replace_time (t : datetime) (h mi s us : Z) :
  wf_datetime t ->
  0 <= h <= 23 -> 0 <= mi <= 59 -> 0 <= s <= 59 -> 0 <= us <= 999999 ->
  replace t None None None (Some h) (Some mi) (Some s) (Some us)
  = Ok (at_time t h mi s us).
Proof.
  intros Hwf Hh Hmi Hs Hus. apply wf_naive_iff in Hwf.
  unfold replace, naive_replace. cbn [from_option id].
  rewrite datetime_new_ok; [reflexivity |].
  apply check_fields_iff. tauto.
Qed.

Lemma replace_hour (t : datetime) (h : Z) :
  wf_datetime t -> 0 <= h <= 23 ->
  replace t None None None (Some h) None None None
  = Ok (at_time t h (minute (wall t)) (second (wall t)) (microsecond (wall t))).
Proof.
  intros Hwf Hh. apply wf_naive_iff in Hwf.
  unfold replace, naive_replace. cbn [from_option id].
  rewrite datetime_new_ok; [reflexivity |].
  apply check_fields_iff. tauto.
Qed.


Lemma at_time_wf (t : datetime) (h mi s us : Z) :
  wf_datetime t ->
  0 <= h <= 23 -> 0 <= mi <= 59 -> 0 <= s <= 59 -> 0 <= us <= 999999 ->
  wf_datetime (at_time t h mi s us).
Proof.
  intros Hwf Hh Hmi Hs Hus. apply wf_naive_iff in Hwf.
  apply wf_naive_iff. cbn. tauto.
Qed.

Lemma at_time_wall_micros (t : datetime) (h mi s us : Z) :
  wall_micros (wall (at_time t h mi s us))
  = toordinal (wall t) * US_PER_DAY
    + ((h * 3600 + mi * 60 + s) * US_PER_SECOND + us).
Proof.
  unfold wall_micros, toordinal, at_time, US_PER_DAY, US_PER_SECOND. cbn. lia.
Qed.

Lemma datetime_add_spec (d : datetime) (td : timedelta) :
  wf_datetime d ->
  US_PER_DAY <= wall_micros (wall d) + td < (_MAXORDINAL + 1) * US_PER_DAY ->
  exists d', datetime_add d td = Ok d' /\ wf_datetime d'
             /\ utcoffset d' = utcoffset d
             /\ wall_micros (wall d') = wall_micros (wall d) + td
             /\ utc_micros d' = utc_micros d + td.
Proof.
  intros Hwf Hr. destruct (naive_add_spec _ _ Hwf Hr) as (c' & Hadd & Hwf' & Hm).
  exists (mk_datetime c' (utcoffset d)). unfold datetime_add. rewrite Hadd.
  unfold utc_micros. cbn. repeat split; try assumption. lia.
Qed.

Section Daily.
Variable self : BillingPeriodCalculator.
Variable t : datetime.
Hypothesis Hwf : wf_datetime t.

Lemma daily_midnight_rule :
  (reset_day self = None \/ exists h, reset_day self = Some h /\ h <= 0) ->
  toordinal (wall t) < _MAXORDINAL ->
  midnight_rule (_calculate_daily_boundaries self t) t.
Proof.
  intros Hreset Hord. unfold midnight_rule, _calculate_daily_boundaries.
  cbv zeta.
  rewrite replace_time by (assumption || lia). cbn [bind].
  assert (Hz : (0 <? default 0 (reset_day self)) = false).
  { apply Z.ltb_ge. destruct Hreset as [-> | (h & -> & Hh)]; cbn; lia. }
  rewrite Hz.
  assert (Hwf0 : wf_datetime (at_time t 0 0 0 0))
    by (apply at_time_wf; (assumption || lia)).
  destruct (datetime_add_spec (at_time t 0 0 0 0) (timedelta_days 1) Hwf0)
    as (e & He & Hwe & Hoff & _ & Hutc).
  { rewrite at_time_wall_micros. pose proof (toordinal_bounds _ Hwf).
    unfold timedelta_days, US_PER_DAY, US_PER_SECOND, _MAXORDINAL in *. lia. }
  rewrite He. cbn [bind]. exists e.
  repeat split; first [assumption | rewrite Hutc; unfold timedelta_days; lia].
Qed.

Lemma daily_offset_rule (H : Z) :
  reset_day self = Some H -> 1 <= H <= 23 ->
  1 < toordinal (wall t) < _MAXORDINAL ->
  hour_rule (_calculate_daily_boundaries self t) t H.
Proof.
  intros Hreset HH Hord. unfold hour_rule.
  set (reset_today := at_time t H 0 0 0).
  unfold _calculate_daily_boundaries. cbv zeta. rewrite Hreset. cbn [from_option id].
  rewrite replace_time by (assumption || lia). cbn [bind].
  replace (0 <? H) with true by (symmetry; apply Z.ltb_lt; lia).
  rewrite replace_hour by (try apply at_time_wf; (assumption || lia)).
  cbn [bind]. change (at_time (at_time t 0 0 0 0) H _ _ _) with reset_today.
  assert (Hwr : wf_datetime reset_today)
    by (apply at_time_wf; (assumption || lia)).
  assert (Hmr : wall_micros (wall reset_today)
                = toordinal (wall t) * US_PER_DAY + H * 3600 * US_PER_SECOND)
    by (subst reset_today; rewrite at_time_wall_micros; lia).
  destruct (datetime_lt t reset_today).
  - destruct (datetime_add_spec reset_today (- timedelta_days 1) Hwr)
      as (s & Hs & Hws & Hoffs & Hms & Hus).
    { rewrite Hmr.
      unfold timedelta_days, US_PER_DAY, US_PER_SECOND, _MAXORDINAL in *. lia. }
    unfold datetime_sub_td. rewrite Hs. cbn [bind].
    destruct (datetime_add_spec s (timedelta_days 1) Hws)
      as (e & He & Hwe & Hoffe & _ & Hue).
    { rewrite Hms, Hmr.
      unfold timedelta_days, US_PER_DAY, US_PER_SECOND, _MAXORDINAL in *. lia. }
    rewrite He. cbn [bind]. exists s, e.
    rewrite Hoffe, Hoffs, Hue, Hus. unfold timedelta_days.
    repeat split; try assumption; lia.
  - cbn [bind].
    destruct (datetime_add_spec reset_today (timedelta_days 1) Hwr)
      as (e & He & Hwe & Hoffe & _ & Hue).
    { rewrite Hmr.
      unfold timedelta_days, US_PER_DAY, US_PER_SECOND, _MAXORDINAL in *. lia. }
    rewrite He. cbn [bind]. exists reset_today, e.
    rewrite Hoffe, Hue. unfold timedelta_days.
    repeat split; try assumption; lia.
Qed.
End Daily.

(** ** Weekly boundaries *)

Lemma safe_year_ordinal (c : naive_datetime) :
  wf_naive c -> MINYEAR < year c < MAXYEAR ->
  366 <= toordinal c <= _MAXORDINAL - 365.
Proof.
  intros Hwf Hy. apply wf_naive_iff in Hwf. destruct Hwf as ((_ & Hm & Hd) & _).
  unfold MINYEAR, MAXYEAR in Hy.
  pose proof (day_of_year_bounds _ _ _ Hm Hd) as Hdoy.
  pose proof (days_before_year_succ (year c)) as Hs.
  pose proof (days_before_year_mono 2 (year c) ltac:(lia)) as H1.
  pose proof (days_before_year_mono (year c + 1) 9999 ltac:(lia)) as H2.
  change (_days_before_year 2) with 365 in H1.
  change (_days_before_year 9999) with 3651694 in H2.
  unfold toordinal, _ymd2ord, _MAXORDINAL. lia.
Qed.

Lemma toordinal_of_wall_micros (c c' : naive_datetime) (k : Z) :
  wf_naive c -> wf_naive c' ->
  wall_micros c' = wall_micros c + k * US_PER_DAY ->
  toordinal c' = toordinal c + k /\ time_micros c' = time_micros c.
Proof.
  intros Hwf Hwf' Hm. rewrite !wall_micros_split in Hm.
  pose proof (time_micros_bounds c Hwf). pose proof (time_micros_bounds c' Hwf').
  unfold US_PER_DAY, US_PER_SECOND in *. lia.
Qed.

Section Weekly.
Variable self : BillingPeriodCalculator.
Variable t : datetime.
Hypothesis Hwf : wf_datetime t.
Hypothesis Hord : 7 <= toordinal (wall t) <= _MAXORDINAL - 7.

(** The week starts at midnight of the day that lies
    [(weekday - reset_weekday) mod 7] days before the reference and lasts
    seven days. *)
Lemma weekly_rule :
  let delta := (weekday (wall t) - default 0 (reset_day self)) mod 7 in
  exists start_time end_time,
    _calculate_weekly_boundaries self t = Ok (start_time, end_time)
    /\ wf_datetime start_time /\ wf_datetime end_time
    /\ utcoffset start_time = utcoffset t /\ utcoffset end_time = utcoffset t
    /\ wall_micros (wall start_time)
       = (toordinal (wall t) - delta) * US_PER_DAY
    /\ wall_micros (wall end_time)
       = wall_micros (wall start_time) + 7 * US_PER_DAY.
Proof.
  intros delta. unfold _calculate_weekly_boundaries. cbv zeta. fold delta.
  assert (Hdelta : 0 <= delta <= 6) by (subst delta; zdm).
  clearbody delta.
  pose proof (time_micros_bounds _ Hwf) as Htime.
  pose proof (wall_micros_split (wall t)) as Hsplit.
  destruct (datetime_add_spec t (- timedelta_days delta) Hwf)
    as (sow & Hsow & Hwsow & Hoffsow & Hmsow & _).
  { unfold timedelta_days, US_PER_DAY, US_PER_SECOND, _MAXORDINAL in *. lia. }
  unfold datetime_sub_td. rewrite Hsow. cbn [bind].
  rewrite replace_time by (assumption || lia). cbn [bind].
  destruct (toordinal_of_wall_micros (wall t) (wall sow) (- delta) Hwf Hwsow)
    as [Hordsow _].
  { rewrite Hmsow. unfold timedelta_days. lia. }
  assert (Hw0 : wf_datetime (at_time sow 0 0 0 0))
    by (apply at_time_wf; (assumption || lia)).
  assert (Hm0 : wall_micros (wall (at_time sow 0 0 0 0))
                = (toordinal (wall t) - delta) * US_PER_DAY)
    by (rewrite at_time_wall_micros, Hordsow; lia).
  destruct (datetime_add_spec (at_time sow 0 0 0 0) (timedelta_days 7) Hw0)
    as (e & He & Hwe & Hoffe & Hme & _).
  { rewrite Hm0.
    unfold timedelta_days, US_PER_DAY, US_PER_SECOND, _MAXORDINAL in *. lia. }
  rewrite He. cbn [bind]. exists (at_time sow 0 0 0 0), e.
  rewrite Hoffe, Hme. unfold timedelta_days. cbn [utcoffset at_time].
  repeat split; assumption || lia.
Qed.
End Weekly.

(** ** Monthly boundaries *)

Lemma replace_ok (t : datetime) (y mo d h mi s us : option Z) :
  let c := wall t in
  check_fields (default (year c) y) (default (month c) mo)
    (default (day c) d) (default (hour c) h) (default (minute c) mi)
    (default (second c) s) (default (microsecond c) us) = true ->
  replace t y mo d h mi s us
  = Ok (mk_datetime
          (mk_naive (default (year c) y) (default (month c) mo)
             (default (day c) d) (default (hour c) h) (default (minute c) mi)
             (default (second c) s) (default (microsecond c) us))
          (utcoffset t)).
Proof.
  intros c H. unfold replace, naive_replace. fold c.
  rewrite datetime_new_ok by exact H. reflexivity.
Qed.

Lemma monthrange_ndays_eq (y mo : Z) :
  monthrange_ndays y mo = _days_in_month y mo.
Proof.
  unfold monthrange_ndays, _days_in_month.
  destruct (Z.eqb_spec mo 2) as [-> | Hne]; destruct (_is_leap y); cbn; lia.
Qed.

(** The first day of a month follows the last day of the month before. *)
Lemma next_month_ordinal (y mo : Z) :
  1 <= mo <= 12 ->
  let '(ny, nmo) := if mo =? 12 then (y + 1, 1) else (y, mo + 1) in
  1 <= nmo <= 12
  /\ _ymd2ord ny nmo 1 = _ymd2ord y mo (_days_in_month y mo) + 1.
Proof.
  intros Hmo. pose proof (days_before_year_succ y) as Hs.
  unfold _ymd2ord, _days_before_month, _days_in_month.
  month_split Hmo; cbn [Z.eqb Pos.eqb]; destruct (_is_leap y);
    repeat match goal with
           | |- context [Zpos ?p + 1] =>
               let v := eval vm_compute in (Zpos p + 1) in
               change (Zpos p + 1) with v
           end;
    cbn -[_days_before_year] in *; lia.
Qed.

Lemma prev_month_ordinal (y mo : Z) :
  1 <= mo <= 12 ->
  let '(py, pmo) := if mo =? 1 then (y - 1, 12) else (y, mo - 1) in
  1 <= pmo <= 12
  /\ (if pmo =? 12 then (py + 1, 1) else (py, pmo + 1)) = (y, mo)
  /\ _ymd2ord y mo 1 = _ymd2ord py pmo (_days_in_month py pmo) + 1.
Proof.
  intros Hmo.
  destruct (Z.eqb_spec mo 1) as [-> | Hne].
  - pose proof (next_month_ordinal (y - 1) 12 ltac:(lia)) as H.
    cbn [Z.eqb Pos.eqb] in H |- *.
    replace (y - 1 + 1) with y in * by lia. intuition lia.
  - pose proof (next_month_ordinal y (mo - 1) ltac:(lia)) as H.
    destruct (Z.eqb_spec (mo - 1) 12) as [He | He]; [lia |].
    replace (mo - 1 + 1) with mo in * by lia. intuition lia.
Qed.

Section Monthly.
Variable self : BillingPeriodCalculator.
Variable t : datetime.
Hypothesis Hwf : wf_datetime t.
Hypothesis Hyear : MINYEAR < year (wall t) < MAXYEAR.
Hypothesis Hreset :
  reset_day self = None \/ exists D, reset_day self = Some D /\ 1 <= D.

(** The month boundaries lie at midnight of the reset day, clamped to the
    length of its month; the end is in the month after the start's; the
    reference date is in between. *)
Lemma monthly_rule :
  let D := default 1 (reset_day self) in
  exists start_time end_time,
    _calculate_monthly_boundaries self t = Ok (start_time, end_time)
    /\ wf_datetime start_time /\ wf_datetime end_time
    /\ utcoffset start_time = utcoffset t /\ utcoffset end_time = utcoffset t
    /\ time_micros (wall start_time) = 0 /\ time_micros (wall end_time) = 0
    /\ day (wall start_time)
       = Z.min D (_days_in_month (year (wall start_time))
                    (month (wall start_time)))
    /\ day (wall end_time)
       = Z.min D (_days_in_month (year (wall end_time))
                    (month (wall end_time)))
    /\ (year (wall end_time), month (wall end_time))
       = (if month (wall start_time) =? 12
          then (year (wall start_time) + 1, 1)
          else (year (wall start_time), month (wall start_time) + 1))
    /\ toordinal (wall start_time) <= toordinal (wall t)
       < toordinal (wall end_time).
Proof.
  intros D.
  assert (HD : 1 <= D).
  { subst D. destruct Hreset as [-> | (D' & -> & H')]; cbn; lia. }
  unfold _calculate_monthly_boundaries. cbv zeta. fold D. clearbody D.
  destruct t as [[y mo d h mi s us] off].
  apply wf_naive_iff in Hwf. cbn in Hwf, Hyear.
  destruct Hwf as ((Hy & Hmo & Hd) & Hh & Hmi & Hs & Hus).
  unfold MINYEAR, MAXYEAR in *.
  cbn [wall year month day hour minute second microsecond utcoffset].
  rewrite monthrange_ndays_eq.
  pose proof (days_in_month_bounds y mo Hmo) as Hdim.
  destruct (Z.ltb_spec d (Z.min D (_days_in_month y mo))) as [Hlt | Hge].
  - (* the reset day of this month is still ahead *)
    pose proof (prev_month_ordinal y mo Hmo) as Hp.
    destruct (if mo =? 1 then (y - 1, 12) else (y, mo - 1)) as [py pmo] eqn:Ep.
    destruct Hp as (Hpmo & Hnext & Hord).
    assert (Hpy : 1 <= py <= 9999)
      by (destruct (mo =? 1); injection Ep as <- <-; lia).
    rewrite monthrange_ndays_eq.
    pose proof (days_in_month_bounds py pmo Hpmo) as Hpdim.
    rewrite replace_ok
      by (cbn [from_option id wall]; apply check_fields_iff;
          unfold valid_date, MINYEAR, MAXYEAR; lia).
    cbn [bind from_option id wall year month day hour minute second
         microsecond utcoffset].
    rewrite Hnext. rewrite monthrange_ndays_eq.
    rewrite replace_ok
      by (cbn [from_option id wall year month day hour minute second
               microsecond]; apply check_fields_iff;
          unfold valid_date, MINYEAR, MAXYEAR; lia).
    cbn [bind from_option id wall year month day hour minute second
         microsecond utcoffset].
    eexists _, _. split; [reflexivity |].
    cbn [wall year month day hour minute second microsecond utcoffset].
    rewrite Hnext. unfold wf_datetime, time_micros, toordinal.
    cbn [wall year month day hour minute second microsecond].
    rewrite !wf_naive_iff.
    cbn [year month day hour minute second microsecond].
    unfold valid_date, MINYEAR, MAXYEAR, _ymd2ord in *.
    repeat split; lia.
  - (* the reset day of this month has come *)
    rewrite replace_ok
      by (cbn [from_option id wall year month day hour minute second
               microsecond]; apply check_fields_iff;
          unfold valid_date, MINYEAR, MAXYEAR; lia).
    cbn [bind from_option id wall year month day hour minute second
         microsecond utcoffset].
    pose proof (next_month_ordinal y mo Hmo) as Hn.
    destruct (if mo =? 12 then (y + 1, 1) else (y, mo + 1)) as [ny nmo] eqn:En.
    destruct Hn as (Hnmo & Hord).
    assert (Hny : 1 <= ny <= 9999)
      by (destruct (mo =? 12); injection En as <- <-; lia).
    rewrite monthrange_ndays_eq.
    pose proof (days_in_month_bounds ny nmo Hnmo) as Hndim.
    rewrite replace_ok
      by (cbn [from_option id wall year month day hour minute second
               microsecond]; apply check_fields_iff;
          unfold valid_date, MINYEAR, MAXYEAR; lia).
    cbn [bind from_option id wall year month day hour minute second
         microsecond utcoffset].
    eexists _, _. split; [reflexivity |].
    cbn [wall year month day hour minute second microsecond utcoffset].
    rewrite En. unfold wf_datetime, time_micros, toordinal.
    cbn [wall year month day hour minute second microsecond].
    rewrite !wf_naive_iff.
    cbn [year month day hour minute second microsecond].
    unfold valid_date, MINYEAR, MAXYEAR, _ymd2ord in *.
    repeat split; lia.
Qed.
End Monthly.

(** ** The period contains the reference *)

Lemma daily_contains (self : BillingPeriodCalculator) (t : datetime) :
  wf_datetime t -> 1 < toordinal (wall t) < _MAXORDINAL ->
  (reset_day self = None \/ exists h, reset_day self = Some h /\ h <= 23) ->
  exists start_time end_time,
    _calculate_daily_boundaries self t = Ok (start_time, end_time)
    /\ datetime_le start_time t = true /\ datetime_lt t end_time = true.
Proof.
  intros Hwf Hord Hreset.
  pose proof (time_micros_bounds _ Hwf) as Htime.
  pose proof (wall_micros_split (wall t)) as Hsplit.
  assert (Hmid : (reset_day self = None
                  \/ exists h, reset_day self = Some h /\ h <= 0)
                 \/ exists H, reset_day self = Some H /\ 1 <= H <= 23).
  { destruct Hreset as [Hn | (h & Hs & Hh)]; [left; left; exact Hn |].
    destruct (Z_le_gt_dec h 0); [left; right | right]; exists h; split;
      (assumption || lia). }
  destruct Hmid as [Hmid | (H & Hs & HH)].
  - destruct (daily_midnight_rule self t Hwf Hmid ltac:(lia))
      as (e & Heq & _ & Hoff & Hutc).
    exists (at_time t 0 0 0 0), e. split; [exact Heq |].
    unfold datetime_le, datetime_lt. rewrite Hutc. unfold utc_micros.
    rewrite at_time_wall_micros. cbn [utcoffset at_time].
    split; [apply Z.leb_le | apply Z.ltb_lt];
      unfold US_PER_DAY, US_PER_SECOND in *; lia.
  - destruct (daily_offset_rule self t Hwf H Hs HH Hord)
      as (s & e & Heq & _ & _ & Hoffs & Hoffe & Hus & Hue).
    exists s, e. split; [exact Heq |].
    assert (HR : utc_micros (at_time t H 0 0 0)
                 = toordinal (wall t) * US_PER_DAY + H * 3600 * US_PER_SECOND
                   - utcoffset t).
    { unfold utc_micros. rewrite at_time_wall_micros.
      cbn [utcoffset at_time]. lia. }
    assert (Ht : utc_micros t
                 = toordinal (wall t) * US_PER_DAY + time_micros (wall t)
                   - utcoffset t)
      by (unfold utc_micros; lia).
    unfold datetime_le, datetime_lt in *. rewrite Hue, Hus.
    destruct (Z.ltb_spec (utc_micros t) (utc_micros (at_time t H 0 0 0)))
      as [Hlt | Hge]; rewrite HR, Ht in *;
      (split; [apply Z.leb_le | apply Z.ltb_lt]);
      unfold US_PER_DAY, US_PER_SECOND in *; lia.
Qed.

(** For Daily, Weekly and Monthly calculators, and for a Custom calculator
    without anchor, the computed period contains the reference time. *)
Lemma boundaries_contain_reference (self : BillingPeriodCalculator)
    (t : datetime) :
  reset_day_accepted self ->
  wf_datetime t -> MINYEAR < year (wall t) < MAXYEAR ->
  exists start_time end_time,
    _calculate_period_boundaries self t = Ok (start_time, end_time)
    /\ datetime_le start_time t = true /\ datetime_lt t end_time = true.
Proof.
  intros Hacc Hwf Hyear.
  pose proof (safe_year_ordinal _ Hwf Hyear) as Hord.
  pose proof (time_micros_bounds _ Hwf) as Htime.
  pose proof (wall_micros_split (wall t)) as Hsplit.
  unfold reset_day_accepted in Hacc. unfold _calculate_period_boundaries.
  destruct (period_type self).
  - apply daily_contains; (assumption || unfold _MAXORDINAL in *; lia).
  - destruct (weekly_rule self t Hwf ltac:(unfold _MAXORDINAL in *; lia))
      as (s & e & Heq & _ & _ & Hoffs & Hoffe & Hms & Hme).
    exists s, e. split; [exact Heq |].
    assert (Hdelta : 0 <= (weekday (wall t) - default 0 (reset_day self)) mod 7
                     <= 6) by zdm.
    unfold datetime_le, datetime_lt, utc_micros.
    rewrite Hoffs, Hoffe, Hme, Hms.
    split; [apply Z.leb_le | apply Z.ltb_lt];
      unfold US_PER_DAY, US_PER_SECOND in *; lia.
  - destruct (monthly_rule self t Hwf Hyear Hacc)
      as (s & e & Heq & Hws & Hwe & Hoffs & Hoffe & Hts & Hte & _ & _ & _
          & Hords).
    exists s, e. split; [exact Heq |].
    unfold datetime_le, datetime_lt, utc_micros.
    rewrite Hoffs, Hoffe, !wall_micros_split, Hts, Hte.
    split; [apply Z.leb_le | apply Z.ltb_lt];
      unfold US_PER_DAY, US_PER_SECOND in *; lia.
  - destruct Hacc as [Hanchor Hreset].
    unfold _calculate_custom_boundaries. rewrite Hanchor.
    apply daily_contains; (assumption || unfold _MAXORDINAL in *; lia).
Qed.

Lemma naive_add_zero (c : naive_datetime) :
  wf_naive c -> naive_add c 0 = Ok c.
Proof.
  intros Hwf. unfold naive_add. cbv zeta. rewrite Z.add_0_r.
  pose proof (toordinal_bounds c Hwf) as Ho.
  pose proof (time_micros_bounds c Hwf) as Ht.
  assert (Hd : wall_micros c / US_PER_DAY = toordinal c).
  { rewrite wall_micros_split.
    unfold US_PER_DAY, US_PER_SECOND in *. zdm. }
  rewrite Hd.
  replace ((0 <? toordinal c) && (toordinal c <=? _MAXORDINAL)) with true
    by (symmetry; apply andb_true_iff; split;
        [apply Z.ltb_lt | apply Z.leb_le]; lia).
  rewrite of_wall_micros_wall_micros by assumption. reflexivity.
Qed.

(** Converting a UTC value to UTC gives the value back, as the shortcut of
    [astimezone] for an identical [tzinfo] does. *)
Lemma astimezone_same_offset (d : datetime) :
  wf_datetime d -> utcoffset d = 0 -> astimezone d tz_utc = Ok d.
Proof.
  intros Hwf Hoff. unfold astimezone. rewrite Hoff. cbn [Z.opp].
  rewrite naive_add_zero by assumption. cbn [bind tz_fromutc_offset].
  rewrite naive_add_zero by assumption. cbn [bind].
  destruct d as [w o]. cbn in Hoff. subst o. reflexivity.
Qed.

Lemma naive_add_inv (c c' : naive_datetime) (td : timedelta) :
  naive_add c td = Ok c' ->
  wf_naive c' /\ wall_micros c' = wall_micros c + td.
Proof.
  unfold naive_add. cbv zeta.
  destruct (Z.ltb_spec 0 ((wall_micros c + td) / US_PER_DAY)) as [H1 | H1];
    [| discriminate].
  destruct (Z.leb_spec ((wall_micros c + td) / US_PER_DAY) _MAXORDINAL)
    as [H2 | H2]; [| discriminate].
  cbn [andb]. intros [= <-]. apply of_wall_micros_spec. lia.
Qed.

(** [astimezone] keeps the instant and attaches the offset the zone has at
    that instant. *)
Lemma astimezone_inv (d d' : datetime) (tz : timezone) :
  astimezone d tz = Ok d' ->
  wf_datetime d' /\ utc_micros d' = utc_micros d
  /\ utcoffset d' = tz_fromutc_offset tz (utc_micros d).
Proof.
  unfold astimezone.
  destruct (naive_add (wall d) (- utcoffset d)) as [u | e] eqn:Eu;
    [| discriminate].
  cbn [bind]. destruct (naive_add_inv _ _ _ Eu) as [Hwu Hmu].
  destruct (naive_add u (tz_fromutc_offset tz (wall_micros u))) as [w | e] eqn:Ew;
    [| discriminate].
  cbn [bind]. destruct (naive_add_inv _ _ _ Ew) as [Hww Hmw].
  intros [= <-]. unfold wf_datetime, utc_micros. cbn [wall utcoffset].
  rewrite Hmw, Hmu. replace (wall_micros (wall d) + - utcoffset d)
    with (wall_micros (wall d) - utcoffset d) by lia.
  repeat split; (assumption || lia).
Qed.

(** The period [get_period_for_timestamp] returns for an aware timestamp
    contains that timestamp, for Daily, Weekly and Monthly calculators (and
    Custom ones without anchor) and timestamps whose year in the configured
    zone is not the first or the last of the calendar. *)
Lemma get_period_for_timestamp_contains (self : BillingPeriodCalculator)
    (now r t : datetime) :
  reset_day_accepted self ->
  astimezone r (user_tz self) = Ok t ->
  MINYEAR < year (wall t) < MAXYEAR ->
  exists p,
    get_period_for_timestamp self now (aware r) = Ok p
    /\ BillingPeriod.contains_timestamp p r = true.
Proof.
  intros Hacc Htz Hyear. destruct (astimezone_inv _ _ _ Htz) as (Hwf & Hutc & _).
  destruct (boundaries_contain_reference self t Hacc Hwf Hyear)
    as (s & e & Heq & Hle & Hlt).
  unfold get_period_for_timestamp, _ensure_timezone. rewrite Htz. cbn [bind].
  rewrite Heq. cbn [bind]. eexists. split; [reflexivity |].
  unfold BillingPeriod.contains_timestamp. cbn.
  unfold datetime_le, datetime_lt in *. rewrite <- Hutc, Hle, Hlt. reflexivity.
Qed.

(** ** The series of recent periods *)

Lemma year_of_safe_ordinal (c : naive_datetime) :
  wf_naive c -> 366 <= toordinal c <= _MAXORDINAL - 365 ->
  MINYEAR < year c < MAXYEAR.
Proof.
  intros Hwf Ho. apply wf_naive_iff in Hwf.
  destruct Hwf as ((Hy & Hm & Hd) & _). unfold MINYEAR, MAXYEAR in *.
  pose proof (day_of_year_bounds _ _ _ Hm Hd) as Hdoy.
  pose proof (days_before_year_succ (year c)) as Hs.
  unfold toordinal, _ymd2ord, _MAXORDINAL in Ho.
  split.
  - destruct (Z.eq_dec (year c) 1) as [E | E]; [| lia].
    rewrite E in *. change (_days_before_year 1) with 0 in *.
    change (_is_leap 1) with false in *. lia.
  - destruct (Z.eq_dec (year c) 9999) as [E | E]; [| lia].
    rewrite E in *. change (_days_before_year 9999) with 3651694 in *. lia.
Qed.

Lemma at_time_utc_micros (t : datetime) (h mi s us : Z) :
  utc_micros (at_time t h mi s us)
  = toordinal (wall t) * US_PER_DAY
    + ((h * 3600 + mi * 60 + s) * US_PER_SECOND + us) - utcoffset t.
Proof. unfold utc_micros. rewrite at_time_wall_micros. reflexivity. Qed.

(** One second before a time [s] that lies at a full second. *)
Lemma step_back_second (s : datetime) :
  wf_datetime s -> 1 < toordinal (wall s) ->
  time_micros (wall s) = 0 \/ US_PER_SECOND <= time_micros (wall s) ->
  exists t',
    datetime_sub_td s (timedelta_seconds 1) = Ok t'
    /\ wf_datetime t' /\ utcoffset t' = utcoffset s
    /\ utc_micros t' = utc_micros s - US_PER_SECOND
    /\ toordinal (wall t') * US_PER_DAY + time_micros (wall t')
       = toordinal (wall s) * US_PER_DAY + time_micros (wall s) - US_PER_SECOND
    /\ 0 <= time_micros (wall t') < US_PER_DAY.
Proof.
  intros Hwf Hord Htime.
  pose proof (time_micros_bounds _ Hwf) as Hb.
  pose proof (toordinal_bounds _ Hwf) as Ho.
  pose proof (wall_micros_split (wall s)) as Hsplit.
  destruct (datetime_add_spec s (- timedelta_seconds 1) Hwf)
    as (t' & Ht' & Hwf' & Hoff & Hm & Hutc).
  { unfold timedelta_seconds, US_PER_DAY, US_PER_SECOND, _MAXORDINAL in *. lia. }
  exists t'. unfold datetime_sub_td.
  pose proof (time_micros_bounds _ Hwf') as Hb'.
  pose proof (wall_micros_split (wall t')) as Hsplit'.
  unfold timedelta_seconds in *. repeat split; (assumption || lia).
Qed.

Section StepBack.
Variable self : BillingPeriodCalculator.
Variable t : datetime.
Hypothesis Hwf : wf_datetime t.
Hypothesis Hord : 398 <= toordinal (wall t) <= _MAXORDINAL - 365.

(** The period before a Daily period ends where that period starts. *)
Lemma daily_step_back :
  (reset_day self = None \/ exists h, reset_day self = Some h /\ h <= 23) ->
  exists s e t' s',
    _calculate_daily_boundaries self t = Ok (s, e)
    /\ datetime_sub_td s (timedelta_seconds 1) = Ok t'
    /\ wf_datetime t' /\ utcoffset t' = utcoffset t
    /\ toordinal (wall t) - 32 <= toordinal (wall t') <= toordinal (wall t)
    /\ _calculate_daily_boundaries self t' = Ok (s', s)
    /\ datetime_lt s' s = true.
Proof.
  intros Hreset.
  pose proof (time_micros_bounds _ Hwf) as Htime.
  assert (Hcases : (reset_day self = None
                    \/ exists h, reset_day self = Some h /\ h <= 0)
                   \/ exists H, reset_day self = Some H /\ 1 <= H <= 23).
  { destruct Hreset as [Hn | (h & Hs & Hh)]; [left; left; exact Hn |].
    destruct (Z_le_gt_dec h 0); [left; right | right]; exists h; split;
      (assumption || lia). }
  destruct Hcases as [Hmid | (H & Hs & HH)].
  - destruct (daily_midnight_rule self t Hwf Hmid
                ltac:(unfold _MAXORDINAL in *; lia))
      as (e & Heq & Hwe & Hoffe & Hue).
    assert (Hws : wf_datetime (at_time t 0 0 0 0))
      by (apply at_time_wf; (assumption || lia)).
    assert (Hos : 1 < toordinal (wall (at_time t 0 0 0 0)))
      by (change (toordinal (wall (at_time t 0 0 0 0)))
            with (toordinal (wall t)); lia).
    destruct (step_back_second (at_time t 0 0 0 0) Hws Hos
                ltac:(left; reflexivity))
      as (t' & Ht' & Hwt' & Hofft' & Hut' & Hsplit' & Hb').
    change (toordinal (wall (at_time t 0 0 0 0))) with (toordinal (wall t))
      in Hsplit'.
    change (time_micros (wall (at_time t 0 0 0 0))) with 0 in Hsplit'.
    change (utcoffset (at_time t 0 0 0 0)) with (utcoffset t) in Hofft'.
    assert (Hot' : toordinal (wall t') = toordinal (wall t) - 1)
      by (unfold US_PER_DAY, US_PER_SECOND in *; lia).
    destruct (daily_midnight_rule self t' Hwt' Hmid
                ltac:(unfold _MAXORDINAL in *; lia))
      as (e' & Heq' & Hwe' & Hoffe' & Hue').
    assert (He's : e' = at_time t 0 0 0 0).
    { apply datetime_eq; [assumption .. | |].
      - rewrite Hoffe', Hofft'. reflexivity.
      - rewrite Hue', !at_time_utc_micros, Hofft', Hot'. lia. }
    rewrite He's in Heq'.
    exists (at_time t 0 0 0 0), e, t', (at_time t' 0 0 0 0).
    repeat split;
      first [ assumption | lia | congruence
            | unfold datetime_lt; apply Z.ltb_lt;
              rewrite !at_time_utc_micros, Hofft', Hot';
              unfold US_PER_DAY, US_PER_SECOND; lia ].
  - destruct (daily_offset_rule self t Hwf H Hs HH
                ltac:(unfold _MAXORDINAL in *; lia))
      as (s & e & Heq & Hws & Hwe & Hoffs & Hoffe & Hus & Hue).
    assert (HR : utc_micros (at_time t H 0 0 0)
                 = toordinal (wall t) * US_PER_DAY + H * 3600 * US_PER_SECOND
                   - utcoffset t)
      by (rewrite at_time_utc_micros; lia).
    pose proof (time_micros_bounds _ Hws) as Hbs.
    assert (Hshape : time_micros (wall s) = H * 3600 * US_PER_SECOND
                     /\ toordinal (wall t) - 1 <= toordinal (wall s)
                        <= toordinal (wall t)).
    { unfold utc_micros in Hus at 1. rewrite wall_micros_split, Hoffs, HR in Hus.
      destruct (datetime_lt t (at_time t H 0 0 0));
        unfold US_PER_DAY, US_PER_SECOND in *; lia. }
    destruct Hshape as [Hts Hos].
    destruct (step_back_second s Hws ltac:(lia)
                ltac:(right; unfold US_PER_SECOND in *; lia))
      as (t' & Ht' & Hwt' & Hofft' & Hut' & Hsplit' & Hb').
    assert (Hot' : toordinal (wall t') = toordinal (wall s)
                   /\ time_micros (wall t')
                      = H * 3600 * US_PER_SECOND - US_PER_SECOND)
      by (unfold US_PER_DAY, US_PER_SECOND in *; lia).
    destruct Hot' as [Hot' Htt'].
    destruct (daily_offset_rule self t' Hwt' H Hs HH
                ltac:(unfold _MAXORDINAL in *; lia))
      as (s' & e' & Heq' & Hws' & Hwe' & Hoffs' & Hoffe' & Hus' & Hue').
    assert (HR' : utc_micros (at_time t' H 0 0 0) = utc_micros s).
    { rewrite at_time_utc_micros. unfold utc_micros.
      rewrite (wall_micros_split (wall s)), Hofft', Hoffs, Hot', Hts. lia. }
    assert (Hlt' : datetime_lt t' (at_time t' H 0 0 0) = true).
    { unfold datetime_lt. apply Z.ltb_lt. rewrite HR', Hut'.
      unfold US_PER_SECOND. lia. }
    rewrite Hlt', HR' in Hus'.
    assert (He's : e' = s).
    { apply datetime_eq; [assumption .. | |].
      - rewrite Hoffe', Hofft', Hoffs. reflexivity.
      - rewrite Hue', Hus'. lia. }
    exists s, e, t', s'. rewrite He's in Heq'.
    repeat split;
      first [ assumption | lia | congruence
            | unfold datetime_lt; apply Z.ltb_lt; rewrite Hus';
              unfold US_PER_DAY, US_PER_SECOND; lia ].
Qed.
End StepBack.

Section StepBackWeekly.
Variable self : BillingPeriodCalculator.
Variable t : datetime.
Hypothesis Hwf : wf_datetime t.
Hypothesis Hord : 398 <= toordinal (wall t) <= _MAXORDINAL - 365.

(** The week before a Weekly period ends where that period starts. *)
Lemma weekly_step_back :
  exists s e t' s',
    _calculate_weekly_boundaries self t = Ok (s, e)
    /\ datetime_sub_td s (timedelta_seconds 1) = Ok t'
    /\ wf_datetime t' /\ utcoffset t' = utcoffset t
    /\ toordinal (wall t) - 32 <= toordinal (wall t') <= toordinal (wall t)
    /\ _calculate_weekly_boundaries self t' = Ok (s', s)
    /\ datetime_lt s' s = true.
Proof.
  destruct (weekly_rule self t Hwf ltac:(unfold _MAXORDINAL in *; lia))
    as (s & e & Heq & Hws & Hwe & Hoffs & Hoffe & Hms & Hme).
  set (W := default 0 (reset_day self)) in *.
  set (delta := (weekday (wall t) - W) mod 7) in *.
  assert (Hdelta : 0 <= delta <= 6) by (subst delta; zdm).
  pose proof (time_micros_bounds _ Hws) as Hbs.
  assert (Hshape : toordinal (wall s) = toordinal (wall t) - delta
                   /\ time_micros (wall s) = 0).
  { rewrite wall_micros_split in Hms.
    unfold US_PER_DAY, US_PER_SECOND in *. lia. }
  destruct Hshape as [Hos Hts].
  destruct (step_back_second s Hws ltac:(lia) ltac:(left; exact Hts))
    as (t' & Ht' & Hwt' & Hofft' & Hut' & Hsplit' & Hb').
  assert (Hot' : toordinal (wall t') = toordinal (wall s) - 1)
    by (unfold US_PER_DAY, US_PER_SECOND in *; lia).
  destruct (weekly_rule self t' Hwt' ltac:(unfold _MAXORDINAL in *; lia))
    as (s' & e' & Heq' & Hws' & Hwe' & Hoffs' & Hoffe' & Hms' & Hme').
  fold W in Hms'.
  assert (Hdelta' : (weekday (wall t') - W) mod 7 = 6).
  { unfold weekday. rewrite Hot', Hos. subst delta. unfold weekday.
    generalize (toordinal (wall t)). intros o. zdm. }
  rewrite Hdelta' in Hms'.
  assert (He's : e' = s).
  { apply datetime_eq; [assumption .. | |].
    - congruence.
    - unfold utc_micros. rewrite Hoffe', Hofft', Hme', Hms', Hot'.
      rewrite (wall_micros_split (wall s)), Hts. lia. }
  rewrite He's in Heq'. exists s, e, t', s'.
  repeat split;
    first [ assumption | lia | congruence
          | unfold datetime_lt, utc_micros; apply Z.ltb_lt;
            rewrite Hoffs', Hofft', Hms', Hot', (wall_micros_split (wall s)), Hts;
            unfold US_PER_DAY, US_PER_SECOND; lia ].
Qed.
End StepBackWeekly.

Lemma days_before_month_mono (y mo mo' : Z) :
  1 <= mo <= 12 -> 1 <= mo' <= 12 -> mo <= mo' ->
  _days_before_month y mo <= _days_before_month y mo'.
Proof.
  intros Hm Hm' Hle. unfold _days_before_month.
  month_split Hm; month_split Hm'; destruct (_is_leap y); cbn; lia.
Qed.

Lemma first_day_mono (y mo y' mo' : Z) :
  1 <= mo <= 12 -> 1 <= mo' <= 12 -> 12 * y + mo <= 12 * y' + mo' ->
  _ymd2ord y mo 1 <= _ymd2ord y' mo' 1.
Proof.
  intros Hm Hm' Hle. unfold _ymd2ord.
  destruct (Z.eq_dec y y') as [<- | Hne].
  - pose proof (days_before_month_mono y mo mo' Hm Hm' ltac:(lia)). lia.
  - pose proof (days_before_year_succ y) as Hs.
    pose proof (days_before_year_mono (y + 1) y' ltac:(lia)) as Hmono.
    pose proof (day_of_year_bounds y mo 1 Hm
                  ltac:(pose proof (days_in_month_bounds y mo Hm); lia)).
    pose proof (day_of_year_bounds y' mo' 1 Hm'
                  ltac:(pose proof (days_in_month_bounds y' mo' Hm'); lia)).
    lia.
Qed.

Lemma reset_ordinal_mono (D y mo y' mo' : Z) :
  1 <= D -> 1 <= mo <= 12 -> 1 <= mo' <= 12 ->
  12 * y + mo < 12 * y' + mo' ->
  reset_ordinal D y mo < reset_ordinal D y' mo'.
Proof.
  intros HD Hm Hm' Hlt. unfold reset_ordinal.
  pose proof (days_in_month_bounds y mo Hm) as Hdim.
  pose proof (days_in_month_bounds y' mo' Hm') as Hdim'.
  pose proof (next_month_ordinal y mo Hm) as Hn.
  destruct (if mo =? 12 then (y + 1, 1) else (y, mo + 1)) as [ny nmo] eqn:En.
  destruct Hn as [Hnmo Hnext].
  assert (Hidx : 12 * ny + nmo = 12 * y + mo + 1).
  { destruct (Z.eqb_spec mo 12); injection En as <- <-; lia. }
  pose proof (first_day_mono ny nmo y' mo' Hnmo Hm' ltac:(lia)) as Hf.
  unfold _ymd2ord in *. lia.
Qed.

Lemma time_zero_fields (c : naive_datetime) :
  wf_naive c -> time_micros c = 0 ->
  hour c = 0 /\ minute c = 0 /\ second c = 0 /\ microsecond c = 0.
Proof.
  intros Hwf Ht. apply wf_naive_iff in Hwf. unfold time_micros in Ht.
  unfold US_PER_SECOND in *. lia.
Qed.

Section StepBackMonthly.
Variable self : BillingPeriodCalculator.
Variable t : datetime.
Hypothesis Hwf : wf_datetime t.
Hypothesis Hord : 398 <= toordinal (wall t) <= _MAXORDINAL - 365.
Hypothesis Hreset :
  reset_day self = None \/ exists D, reset_day self = Some D /\ 1 <= D.

(** The month before a Monthly period ends where that period starts. *)
Lemma monthly_step_back :
  exists s e t' s',
    _calculate_monthly_boundaries self t = Ok (s, e)
    /\ datetime_sub_td s (timedelta_seconds 1) = Ok t'
    /\ wf_datetime t' /\ utcoffset t' = utcoffset t
    /\ toordinal (wall t) - 32 <= toordinal (wall t') <= toordinal (wall t)
    /\ _calculate_monthly_boundaries self t' = Ok (s', s)
    /\ datetime_lt s' s = true.
Proof.
  pose proof (year_of_safe_ordinal _ Hwf ltac:(lia)) as Hyear.
  destruct (monthly_rule self t Hwf Hyear Hreset)
    as (s & e & Heq & Hws & Hwe & Hoffs & Hoffe & Hts & Hte & Hds & Hde
        & Hnext & Hords).
  set (D := default 1 (reset_day self)) in *.
  assert (HD : 1 <= D).
  { subst D. destruct Hreset as [-> | (D' & -> & H')]; cbn; lia. }
  pose proof Hws as Hvs. apply wf_naive_iff in Hvs.
  destruct Hvs as ((_ & Hmos & _) & _).
  pose proof Hwe as Hve. apply wf_naive_iff in Hve.
  destruct Hve as ((_ & Hmoe & _) & _).
  (* the period is at most 31 days long *)
  assert (Hlen : toordinal (wall e) <= toordinal (wall s) + 31).
  { pose proof (next_month_ordinal (year (wall s)) (month (wall s)) Hmos) as Hn.
    rewrite <- Hnext in Hn. destruct Hn as [_ Hn].
    pose proof (days_in_month_bounds (year (wall s)) (month (wall s)) Hmos).
    pose proof (days_in_month_bounds (year (wall e)) (month (wall e)) Hmoe).
    unfold toordinal. rewrite Hds, Hde. unfold _ymd2ord in *. lia. }
  destruct (step_back_second s Hws ltac:(lia) ltac:(left; exact Hts))
    as (t' & Ht' & Hwt' & Hofft' & Hut' & Hsplit' & Hb').
  assert (Hot' : toordinal (wall t') = toordinal (wall s) - 1)
    by (unfold US_PER_DAY, US_PER_SECOND in *; lia).
  pose proof (year_of_safe_ordinal _ Hwt' ltac:(unfold _MAXORDINAL in *; lia))
    as Hyear'.
  destruct (monthly_rule self t' Hwt' Hyear' Hreset)
    as (s' & e' & Heq' & Hws' & Hwe' & Hoffs' & Hoffe' & Hts' & Hte' & Hds'
        & Hde' & Hnext' & Hords').
  fold D in Hds', Hde'.
  pose proof Hws' as Hvs'. apply wf_naive_iff in Hvs'.
  destruct Hvs' as ((_ & Hmos' & _) & _).
  pose proof Hwe' as Hve'. apply wf_naive_iff in Hve'.
  destruct Hve' as ((_ & Hmoe' & _) & _).
  (* the boundaries are reset ordinals of their months *)
  assert (Hrs : toordinal (wall s)
                = reset_ordinal D (year (wall s)) (month (wall s)))
    by (unfold toordinal, reset_ordinal; rewrite Hds at 1; reflexivity).
  assert (Hrs' : toordinal (wall s')
                 = reset_ordinal D (year (wall s')) (month (wall s')))
    by (unfold toordinal, reset_ordinal; rewrite Hds' at 1; reflexivity).
  assert (Hre' : toordinal (wall e')
                 = reset_ordinal D (year (wall e')) (month (wall e')))
    by (unfold toordinal, reset_ordinal; rewrite Hde' at 1; reflexivity).
  assert (Hidx' : 12 * year (wall e') + month (wall e')
                  = 12 * year (wall s') + month (wall s') + 1).
  { destruct (Z.eqb_spec (month (wall s')) 12);
      injection Hnext' as -> ->; lia. }
  (* so the later one of the second pair is the earlier one of the first *)
  assert (Hsame : year (wall e') = year (wall s)
                  /\ month (wall e') = month (wall s)).
  { destruct (Z.lt_trichotomy
                (12 * year (wall e') + month (wall e'))
                (12 * year (wall s) + month (wall s))) as [Hlt | [He | Hgt]].
    - pose proof (reset_ordinal_mono D _ _ _ _ HD Hmoe' Hmos Hlt). lia.
    - lia.
    - assert (Hle : 12 * year (wall s) + month (wall s)
                    < 12 * year (wall s') + month (wall s')
                      \/ (year (wall s) = year (wall s')
                          /\ month (wall s) = month (wall s'))) by lia.
      destruct Hle as [Hlt | [Ey Em]].
      + pose proof (reset_ordinal_mono D _ _ _ _ HD Hmos Hmos' Hlt). lia.
      + rewrite Ey, Em in Hrs. lia. }
  destruct Hsame as [Ey Em].
  assert (He's : e' = s).
  { apply datetime_eq; [assumption .. | |].
    - congruence.
    - unfold utc_micros. rewrite Hoffe', Hofft', Hoffs.
      rewrite !wall_micros_split, Hte', Hts, Hre', Hrs, Ey, Em. reflexivity. }
  rewrite He's in Heq'. exists s, e, t', s'.
  repeat split;
    first [ assumption | lia | congruence
          | unfold datetime_lt, utc_micros; apply Z.ltb_lt;
            rewrite Hoffs', Hofft', !wall_micros_split, Hts', Hts;
            unfold US_PER_DAY, US_PER_SECOND; lia ].
Qed.
End StepBackMonthly.

Lemma boundaries_step_back (self : BillingPeriodCalculator) (t : datetime) :
  reset_day_accepted self -> wf_datetime t ->
  398 <= toordinal (wall t) <= _MAXORDINAL - 365 ->
  exists s e t' s',
    _calculate_period_boundaries self t = Ok (s, e)
    /\ datetime_sub_td s (timedelta_seconds 1) = Ok t'
    /\ wf_datetime t' /\ utcoffset t' = utcoffset t
    /\ toordinal (wall t) - 32 <= toordinal (wall t') <= toordinal (wall t)
    /\ _calculate_period_boundaries self t' = Ok (s', s)
    /\ datetime_lt s' s = true.
Proof.
  intros Hacc Hwf Hord. unfold reset_day_accepted in Hacc.
  unfold _calculate_period_boundaries, _calculate_custom_boundaries.
  destruct (period_type self).
  - apply daily_step_back; assumption.
  - apply weekly_step_back; assumption.
  - apply monthly_step_back; assumption.
  - destruct Hacc as [-> Hreset]. apply daily_step_back; assumption.
Qed.

Section RecentPeriods.
Variable self : BillingPeriodCalculator.
Variable now : datetime.
Hypothesis Hutc : user_tz self = tz_utc.
Hypothesis Hacc : reset_day_accepted self.

Lemma recent_periods_loop_contiguous (n : nat) :
  forall (t : datetime) (acc : list BillingPeriod.t),
    wf_datetime t -> utcoffset t = 0 ->
    398 + 32 * Z.of_nat n <= toordinal (wall t) <= _MAXORDINAL - 365 ->
    exists ps,
      recent_periods_loop self now n t acc = Ok (acc ++ ps)
      /\ length ps = n /\ contiguous ps
      /\ (forall p, head ps = Some p ->
          _calculate_period_boundaries self t
          = Ok (BillingPeriod.start_time p, BillingPeriod.end_time p)).
Proof.
  induction n as [| n IH]; intros t acc Hwf Hoff Hord.
  - exists []. cbn [recent_periods_loop]. rewrite app_nil_r.
    split; [reflexivity |]. split; [reflexivity |]. split.
    + intros i p q Hp. rewrite lookup_nil in Hp. discriminate Hp.
    + intros p Hp. discriminate Hp.
  - destruct (boundaries_step_back self t Hacc Hwf ltac:(lia))
      as (s & e & t' & s' & Heq & Ht' & Hwt' & Hofft' & Hot' & Heq' & Hlt).
    destruct (IH t' (acc ++ [period_at now (period_type self) s e]) Hwt'
                ltac:(congruence) ltac:(lia))
      as (ps & Hloop & Hlen & Hchain & Hhead).
    exists (period_at now (period_type self) s e :: ps).
    cbn [recent_periods_loop]. unfold get_period_for_timestamp, _ensure_timezone.
    rewrite Hutc, astimezone_same_offset by assumption. cbn [bind].
    rewrite Heq. cbn [bind BillingPeriod.start_time]. rewrite Ht'. cbn [bind].
    fold (period_at now (period_type self) s e).
    rewrite Hloop, <- app_assoc. cbn [app length head].
    split; [reflexivity |]. split; [rewrite Hlen; reflexivity |]. split.
    + intros [| j] p q Hp Hq; cbn in Hp, Hq.
      * injection Hp as <-. cbn [period_at BillingPeriod.start_time].
        assert (Hq' : head ps = Some q) by (destruct ps; exact Hq).
        specialize (Hhead q Hq'). rewrite Heq' in Hhead.
        injection Hhead as Hs He. rewrite <- Hs, <- He.
        split; [reflexivity | exact Hlt].
      * apply (Hchain j p q Hp Hq).
    + intros p [= <-]. reflexivity.
Qed.

(** For a Daily, Weekly or Monthly calculator in UTC, [get_recent_periods]
    returns [count] periods, most recent first; each period ends where the
    next more recent one starts. *)
Lemma get_recent_periods_contiguous (count : Z) (r t : datetime) :
  astimezone r tz_utc = Ok t ->
  398 + 32 * Z.max 0 count <= toordinal (wall t) <= _MAXORDINAL - 365 ->
  exists ps,
    get_recent_periods self now count (Some (aware r)) = Ok ps
    /\ length ps = Z.to_nat count /\ contiguous ps.
Proof.
  intros Htz Hord. destruct (astimezone_inv _ _ _ Htz) as (Hwf & _ & Hoff).
  cbn [tz_fromutc_offset] in Hoff.
  destruct (recent_periods_loop_contiguous (Z.to_nat count) t [] Hwf Hoff
              ltac:(lia))
    as (ps & Hloop & Hlen & Hchain & _).
  exists ps. unfold get_recent_periods, _ensure_timezone.
  rewrite Hutc, Htz. cbn [bind]. rewrite Hloop. cbn [app]. tauto.
Qed.
End RecentPeriods.

Example monthly_series_contiguous :
  exists ps,
    get_recent_periods (mk_calculator MONTHLY None (Some 31) tz_utc)
      (utc 2024 6 1 0 0 0) 3 (Some (aware (utc 2024 3 31 0 0 0)))
    = Ok ps
    /\ length ps = 3%nat /\ contiguous ps.
Proof.
  apply (get_recent_periods_contiguous
           (mk_calculator MONTHLY None (Some 31) tz_utc) (utc 2024 6 1 0 0 0)
           eq_refl) with (t := utc 2024 3 31 0 0 0).
  - right. exists 31. split; [reflexivity | lia].
  - reflexivity.
  - split; vm_compute; discriminate.
Qed.











(** ** Aggregation *)

Section LoopBody.
Import BillingPeriodSummary.

Lemma loop_period_cost (es : list UsageEntry.t) (st : loop_state) :
  period_cost (fold_left loop_body es st)
  = fold_left float_add (map UsageEntry.cost_usd es) (period_cost st).
Proof.
  revert st. induction es as [| e es IH]; intros st; [reflexivity |].
  cbn [fold_left map]. rewrite IH. reflexivity.
Qed.

Lemma loop_period_tokens (es : list UsageEntry.t) (st : loop_state) :
  period_tokens (fold_left loop_body es st)
  = TokenCounts.mk
      (TokenCounts.input_tokens (period_tokens st)
       + sum_of UsageEntry.input_tokens es)
      (TokenCounts.output_tokens (period_tokens st)
       + sum_of UsageEntry.output_tokens es)
      (TokenCounts.cache_creation_tokens (period_tokens st)
       + sum_of UsageEntry.cache_creation_tokens es)
      (TokenCounts.cache_read_tokens (period_tokens st)
       + sum_of UsageEntry.cache_read_tokens es).
Proof.
  revert st. induction es as [| e es IH]; intros st.
  - cbn. destruct (period_tokens st). cbn. f_equal; unfold sum_of; cbn [foldr]; lia.
  - cbn [fold_left]. rewrite IH. cbn. f_equal; unfold sum_of; cbn [foldr]; lia.
Qed.

Lemma loop_models_used_fold (es : list UsageEntry.t) (st : loop_state) :
  loop_models_used (fold_left loop_body es st)
  = fold_left add_model (map UsageEntry.model es) (loop_models_used st).
Proof.
  revert st. induction es as [| e es IH]; intros st; [reflexivity |].
  cbn [fold_left map]. rewrite IH. reflexivity.
Qed.
End LoopBody.

Lemma sum_of_app (f : UsageEntry.t -> Z) (l l' : list UsageEntry.t) :
  sum_of f (l ++ l') = sum_of f l + sum_of f l'.
Proof.
  unfold sum_of. induction l as [| e l IH]; cbn; [reflexivity |].
  rewrite IH. lia.
Qed.

Lemma first_seen_elem (x : string) (l : list string) :
  x ∈ first_seen l <-> x ∈ l.
Proof.
  unfold first_seen. rewrite elem_of_reverse, elem_of_remove_dups.
  apply elem_of_reverse.
Qed.

Lemma first_seen_snoc (l : list string) (x : string) :
  first_seen (l ++ [x])
  = if bool_decide (x ∈ first_seen l) then first_seen l
    else first_seen l ++ [x].
Proof.
  unfold first_seen at 1. rewrite reverse_snoc. cbn [remove_dups].
  destruct (decide_rel elem_of x (reverse l)) as [Hin | Hnin].
  - rewrite bool_decide_eq_true_2; [reflexivity |].
    apply first_seen_elem, elem_of_reverse, Hin.
  - rewrite bool_decide_eq_false_2.
    + rewrite reverse_cons. reflexivity.
    + rewrite first_seen_elem. rewrite <- elem_of_reverse. exact Hnin.
Qed.

Lemma first_seen_NoDup (l : list string) : NoDup (first_seen l).
Proof.
  unfold first_seen. rewrite reverse_Permutation. apply NoDup_remove_dups.
Qed.

Lemma models_used_first_seen (l : list string) :
  fold_left add_model l []
  = first_seen (filter (fun m => m <> ""%string) l).
Proof.
  induction l as [| x l IH] using rev_ind; [reflexivity |].
  rewrite fold_left_app. cbn [fold_left]. rewrite IH, filter_app.
  unfold add_model. rewrite filter_cons, filter_nil.
  destruct (String.eqb_spec x "") as [-> | Hne].
  - cbn [negb andb]. rewrite decide_False by congruence.
    rewrite app_nil_r. reflexivity.
  - rewrite decide_True by exact Hne. cbn [negb andb].
    rewrite first_seen_snoc.
    destruct (bool_decide (x ∈ first_seen _)); reflexivity.
Qed.

Section AddSessionBlock.
Import BillingPeriodSummary.
Variable σ : store.

Lemma relevant_entries_in_period (s : t) (b : SessionBlock.t) :
  relevant_entries s b = in_period (period s) (SessionBlock.entries b).
Proof. reflexivity. Qed.

Lemma add_session_block_period (s : t) (b : ref) :
  period (add_session_block σ s b) = period s.
Proof.
  unfold add_session_block. destruct (relevant_entries s (σ b)); reflexivity.
Qed.

Lemma add_session_block_empty (s : t) (b : ref) :
  in_period (period s) (SessionBlock.entries (σ b)) = [] ->
  add_session_block σ s b = s.
Proof.
  intros H. unfold add_session_block.
  rewrite relevant_entries_in_period, H. reflexivity.
Qed.

Lemma add_session_block_entries_count (s : t) (b : ref) :
  entries_count (add_session_block σ s b)
  = entries_count s
    + Z.of_nat (length (in_period (period s) (SessionBlock.entries (σ b)))).
Proof.
  unfold add_session_block. rewrite relevant_entries_in_period.
  destruct (in_period _ _); cbn [entries_count length]; lia.
Qed.

Lemma add_session_block_token_counts (s : t) (b : ref) :
  let es := in_period (period s) (SessionBlock.entries (σ b)) in
  token_counts (add_session_block σ s b)
  = TokenCounts.mk
      (TokenCounts.input_tokens (token_counts s)
       + sum_of UsageEntry.input_tokens es)
      (TokenCounts.output_tokens (token_counts s)
       + sum_of UsageEntry.output_tokens es)
      (TokenCounts.cache_creation_tokens (token_counts s)
       + sum_of UsageEntry.cache_creation_tokens es)
      (TokenCounts.cache_read_tokens (token_counts s)
       + sum_of UsageEntry.cache_read_tokens es).
Proof.
  intros es. unfold add_session_block. rewrite relevant_entries_in_period.
  fold es. destruct es as [| e es'] eqn:E.
  - cbn. destruct (token_counts s). cbn. f_equal; unfold sum_of; cbn [foldr]; lia.
  - cbn [token_counts]. rewrite loop_period_tokens. cbn. f_equal; unfold sum_of; cbn [foldr]; lia.
Qed.

Lemma add_session_block_models_used (s : t) (b : ref) :
  models_used (add_session_block σ s b)
  = fold_left add_model
      (map UsageEntry.model
         (in_period (period s) (SessionBlock.entries (σ b))))
      (models_used s).
Proof.
  unfold add_session_block. rewrite relevant_entries_in_period.
  destruct (in_period _ _) as [| e es'] eqn:E; [reflexivity |].
  cbn [models_used]. rewrite loop_models_used_fold. reflexivity.
Qed.

Lemma add_session_block_total_cost (s : t) (b : ref) :
  total_cost (add_session_block σ s b)
  = match in_period (period s) (SessionBlock.entries (σ b)) with
    | [] => total_cost s
    | es => float_add (total_cost s)
              (float_sum (map UsageEntry.cost_usd es))
    end.
Proof.
  unfold add_session_block. rewrite relevant_entries_in_period.
  destruct (in_period _ _) as [| e es'] eqn:E; [reflexivity |].
  cbn [total_cost]. rewrite loop_period_cost. reflexivity.
Qed.

Lemma add_session_block_session_blocks (s : t) (b : ref) :
  session_blocks (add_session_block σ s b)
  = match in_period (period s) (SessionBlock.entries (σ b)) with
    | [] => session_blocks s
    | _ => session_blocks s ++ [b]
    end.
Proof.
  unfold add_session_block. rewrite relevant_entries_in_period.
  destruct (in_period _ _); reflexivity.
Qed.

(** The state of a summary that [blocks] were folded into. *)
Lemma fold_add_session_block (blocks : list ref) (s : t) :
  let s' := fold_left (add_session_block σ) blocks s in
  let es := in_period_entries σ (period s) blocks in
  period s' = period s
  /\ entries_count s' = entries_count s + Z.of_nat (length es)
  /\ token_counts s'
     = TokenCounts.mk
         (TokenCounts.input_tokens (token_counts s)
          + sum_of UsageEntry.input_tokens es)
         (TokenCounts.output_tokens (token_counts s)
          + sum_of UsageEntry.output_tokens es)
         (TokenCounts.cache_creation_tokens (token_counts s)
          + sum_of UsageEntry.cache_creation_tokens es)
         (TokenCounts.cache_read_tokens (token_counts s)
          + sum_of UsageEntry.cache_read_tokens es)
  /\ models_used s'
     = fold_left add_model (map UsageEntry.model es) (models_used s)
  /\ total_cost s'
     = fold_left
         (fun acc b =>
            match in_period (period s) (SessionBlock.entries (σ b)) with
            | [] => acc
            | es => float_add acc (float_sum (map UsageEntry.cost_usd es))
            end)
         blocks (total_cost s).
Proof.
  revert s. induction blocks as [| b blocks IH]; intros s.
  - cbn. repeat split; try lia. destruct (token_counts s). cbn.
    f_equal; unfold sum_of; cbn [foldr]; lia.
  - cbn [fold_left]. specialize (IH (add_session_block σ s b)).
    cbv zeta in IH |- *. rewrite add_session_block_period in IH.
    destruct IH as (Hp & Hc & Ht & Hm & Hcost).
    unfold in_period_entries in *. cbn [map concat].
    rewrite length_app, map_app, fold_left_app, !sum_of_app.
    rewrite Hp, Hc, Ht, Hm, Hcost.
    rewrite add_session_block_entries_count, add_session_block_models_used,
      add_session_block_total_cost.
    pose proof (add_session_block_token_counts s b) as Htc.
    cbv zeta in Htc. rewrite Htc. cbn.
    repeat split; try lia. f_equal; unfold sum_of; cbn [foldr]; lia.
Qed.
End AddSessionBlock.

(** C7 does not hold as the specification states it on its example: the two
    costs 0.05 and 0.10 are binary64 values and their sum is not the binary64
    value 0.15, so [total_cost == 0.15] is false. *)
Lemma aggregation_example_counterexample : ~ aggregation_example_as_stated.
Proof. intros [H _]. vm_compute in H. discriminate H. Qed.

(** C7, as the code has it.  [create_period_summary] folds exactly the
    in-period entries: each token field is the sum of the entries' fields,
    [entries_count] is their number, [models_used] lists the distinct
    non-empty model names once each in first-seen order, and [total_cost] is
    the float sum taken block by block from the left.  On the example the
    total is 0.15000000000000002, which differs from 0.15 by less than 0.001;
    the token total is 450, the count 2, and the one model is listed once. *)
Theorem create_period_summary_fold :
  (forall (σ : store) (p : BillingPeriod.t) (blocks : list ref),
     let s := create_period_summary σ p blocks in
     let es := in_period_entries σ p blocks in
     BillingPeriodSummary.total_cost s = cost_by_block σ p blocks
     /\ BillingPeriodSummary.token_counts s
        = TokenCounts.mk (sum_of UsageEntry.input_tokens es)
            (sum_of UsageEntry.output_tokens es)
            (sum_of UsageEntry.cache_creation_tokens es)
            (sum_of UsageEntry.cache_read_tokens es)
     /\ BillingPeriodSummary.entries_count s = Z.of_nat (length es)
     /\ BillingPeriodSummary.models_used s
        = first_seen (filter (fun m => m <> ""%string)
                        (map UsageEntry.model es))
     /\ NoDup (BillingPeriodSummary.models_used s))
  /\ BillingPeriodSummary.total_cost test_summary
     = S754_finite false 5404319552844596 (-55)
  /\ float_eqb (BillingPeriodSummary.total_cost test_summary) (decimal 15 2)
     = false
  /\ float_ltb
       (float_abs_diff (BillingPeriodSummary.total_cost test_summary)
          (decimal 15 2))
       (decimal 1 3) = true
  /\ BillingPeriodSummary.total_tokens_calculated test_summary = 450
  /\ BillingPeriodSummary.entries_count test_summary = 2
  /\ BillingPeriodSummary.models_used test_summary = ["claude-3-sonnet"%string].
Proof.
  split.
  - intros σ p blocks s es.
    destruct (fold_add_session_block σ blocks (BillingPeriodSummary.new p))
      as (_ & Hc & Ht & Hm & Hcost).
    change (fold_left (BillingPeriodSummary.add_session_block σ) blocks
              (BillingPeriodSummary.new p)) with s in *.
    change (in_period_entries σ
              (BillingPeriodSummary.period (BillingPeriodSummary.new p))
              blocks) with es in *.
    assert (Hmodels : BillingPeriodSummary.models_used s
                      = first_seen (filter (fun m => m <> ""%string)
                                      (map UsageEntry.model es))).
    { rewrite Hm. apply models_used_first_seen. }
    repeat split.
    + exact Hcost.
    + rewrite Ht. reflexivity.
    + rewrite Hc. reflexivity.
    + exact Hmodels.
    + rewrite Hmodels. apply first_seen_NoDup.
  - repeat split; vm_compute; reflexivity.
Qed.

(** C8.  When no entry of the block has a timestamp the summary's period
    contains, [add_session_block] returns the summary as it was: every field,
    [session_blocks] included, keeps its value. *)
Theorem add_session_block_outside_period (σ : store)
    (s : BillingPeriodSummary.t) (b : ref) :
  Forall (fun e =>
            BillingPeriod.contains_timestamp (BillingPeriodSummary.period s)
              (UsageEntry.timestamp e) = false)
    (SessionBlock.entries (σ b)) ->
  BillingPeriodSummary.add_session_block σ s b = s.
Proof.
  intros Hout. apply add_session_block_empty.
  unfold in_period. induction Hout as [| e es He _ IH]; [reflexivity |].
  rewrite filter_cons, decide_False by congruence. exact IH.
Qed.

(** A block of the day before leaves the summary of the test as it is. *)
Lemma add_session_block_outside_period_witness :
  BillingPeriodSummary.add_session_block (fun _ => outside_block)
    test_summary 2%positive
  = test_summary.
Proof.
  apply add_session_block_outside_period.
  repeat constructor.
Defined.

(** C9 does not hold as the specification states it: after a block with an
    in-period entry is added, [session_blocks] holds the reference that was
    passed. *)
Lemma no_retention_counterexample :
  ~ no_retention_as_stated test_store
      (BillingPeriodSummary.new test_period) 1%positive.
Proof.
  intros H. apply H; vm_compute.
  - apply not_elem_of_nil.
  - apply list_elem_of_here.
Qed.

(** What [session_blocks] holds is the caller's object, not a copy: read
    through any later state of the store, it gives the object's contents
    at that time. *)
Lemma retained_block_is_shared (σ' : store) :
  map σ'
    (BillingPeriodSummary.session_blocks
       (BillingPeriodSummary.add_session_block test_store
          (BillingPeriodSummary.new test_period) 1%positive))
  = [σ' 1%positive].
Proof. reflexivity. Qed.

(** C9, as the code has it.  The call writes nothing to the block it is passed
    (the store is only read), and every field of the summary other than
    [session_blocks] is determined by the summary before the call and the
    in-period entries: two blocks with the same in-period entries give the
    same values.  But a block with an in-period entry is appended, by
    reference, to [session_blocks], so the summary retains it after the call;
    a block without one is not retained. *)
Theorem add_session_block_retention (σ σ' : store)
    (s : BillingPeriodSummary.t) (b b' : ref) :
  in_period (BillingPeriodSummary.period s) (SessionBlock.entries (σ b))
  = in_period (BillingPeriodSummary.period s) (SessionBlock.entries (σ' b')) ->
  let s1 := BillingPeriodSummary.add_session_block σ s b in
  let s2 := BillingPeriodSummary.add_session_block σ' s b' in
  BillingPeriodSummary.period s1 = BillingPeriodSummary.period s2
  /\ BillingPeriodSummary.total_cost s1 = BillingPeriodSummary.total_cost s2
  /\ BillingPeriodSummary.total_tokens s1 = BillingPeriodSummary.total_tokens s2
  /\ BillingPeriodSummary.token_counts s1 = BillingPeriodSummary.token_counts s2
  /\ BillingPeriodSummary.entries_count s1
     = BillingPeriodSummary.entries_count s2
  /\ BillingPeriodSummary.models_used s1 = BillingPeriodSummary.models_used s2
  /\ BillingPeriodSummary.per_model_costs s1
     = BillingPeriodSummary.per_model_costs s2
  /\ BillingPeriodSummary.first_usage s1 = BillingPeriodSummary.first_usage s2
  /\ BillingPeriodSummary.last_usage s1 = BillingPeriodSummary.last_usage s2
  /\ BillingPeriodSummary.session_blocks s1
     = match in_period (BillingPeriodSummary.period s)
               (SessionBlock.entries (σ b)) with
       | [] => BillingPeriodSummary.session_blocks s
       | _ => BillingPeriodSummary.session_blocks s ++ [b]
       end.
Proof.
  intros Heq s1 s2. subst s1 s2.
  rewrite add_session_block_session_blocks.
  unfold BillingPeriodSummary.add_session_block.
  rewrite !relevant_entries_in_period, <- Heq.
  destruct (in_period _ _); repeat split; reflexivity.
Qed.

(** Two blocks with the same in-period entries give the same total, and
    the summary keeps the reference of the block it was given. *)
Lemma add_session_block_retention_witness :
  BillingPeriodSummary.total_cost
    (BillingPeriodSummary.add_session_block two_block_store
       (BillingPeriodSummary.new test_period) 1%positive)
  = BillingPeriodSummary.total_cost
      (BillingPeriodSummary.add_session_block two_block_store
         (BillingPeriodSummary.new test_period) 2%positive)
  /\ BillingPeriodSummary.session_blocks
       (BillingPeriodSummary.add_session_block two_block_store
          (BillingPeriodSummary.new test_period) 2%positive)
     = [2%positive].
Proof.
  pose proof (add_session_block_retention two_block_store two_block_store
                (BillingPeriodSummary.new test_period) 1%positive 2%positive
                eq_refl) as H.
  cbv zeta in H. destruct H as (_ & Hcost & _ & _ & _ & _ & _ & _ & _ & _).
  pose proof (add_session_block_retention two_block_store two_block_store
                (BillingPeriodSummary.new test_period) 2%positive 2%positive
                eq_refl) as H.
  cbv zeta in H. destruct H as (_ & _ & _ & _ & _ & _ & _ & _ & _ & Hblocks).
  split; [exact Hcost | exact Hblocks].
Defined.

(** ** The claims on period boundaries *)

(** C2 does not hold as the specification states it: for a reference on
    2024-02-15 the day 15 is before the clamped reset day 29, so the period
    starts in January. *)
Lemma monthly_example_counterexample :
  ~ monthly_example_as_stated (utc 2024 2 15 0 0 0).
Proof. intros H. vm_compute in H. discriminate H. Qed.

(** C2, as the code has it.  With period type Monthly, [reset_day = 31] and
    zone UTC, every reference time on 2024-02-15 lies in the period that
    starts at 2024-01-31T00:00:00Z (the reset day of the previous month, since
    15 < 29) and ends at 2024-02-29T00:00:00Z (the reset day clamped to the 29
    days of February 2024). *)
Theorem monthly_reset_31_mid_february (now : datetime) (h mi s us : Z) :
  0 <= h <= 23 -> 0 <= mi <= 59 -> 0 <= s <= 59 -> 0 <= us <= 999999 ->
  get_current_period (mk_calculator MONTHLY None (Some 31) tz_utc) now
    (Some (aware (mk_datetime (mk_naive 2024 2 15 h mi s us) 0)))
  = Ok (BillingPeriod.mk MONTHLY (utc 2024 1 31 0 0 0) (utc 2024 2 29 0 0 0)
          true None).
Proof.
  intros Hh Hmi Hs Hus. unfold get_current_period, _ensure_timezone.
  cbn [user_tz]. rewrite astimezone_same_offset.
  - reflexivity.
  - apply wf_naive_iff. unfold valid_date, MINYEAR, MAXYEAR.
    cbn [wall year month day hour minute second microsecond].
    change (_days_in_month 2024 2) with 29. lia.
  - reflexivity.
Qed.

(** The reference 2024-02-15T14:30:00Z. *)
Lemma monthly_reset_31_mid_february_witness :
  get_current_period (mk_calculator MONTHLY None (Some 31) tz_utc)
    (utc 2024 6 1 0 0 0) (Some (aware (utc 2024 2 15 14 30 0)))
  = Ok (BillingPeriod.mk MONTHLY (utc 2024 1 31 0 0 0) (utc 2024 2 29 0 0 0)
          true None).
Proof.
  apply (monthly_reset_31_mid_february (utc 2024 6 1 0 0 0) 14 30 0 0); lia.
Defined.

(** C1.  The code departs from the specification.  For the Custom calculator
    anchored at 2024-01-10T00:00:00Z, [get_period_for_timestamp] answers the
    timestamp 2024-01-05T00:00:00Z, which precedes the anchor, with the period
    [2024-01-10, 2024-02-09), which does not contain it. *)
Theorem custom_period_misses_timestamp_before_anchor (now : datetime) :
  get_period_for_timestamp custom_calculator now (aware (utc 2024 1 5 0 0 0))
  = Ok (anchor_period now)
  /\ BillingPeriod.contains_timestamp (anchor_period now) (utc 2024 1 5 0 0 0)
     = false.
Proof. split; reflexivity. Qed.

(** C3.  The code departs from the specification.  For the anchor
    2024-01-10T00:00:00Z and the reference 2024-01-05T00:00:00Z the floor
    gives [periods_elapsed = -1] and the period [2023-12-11, 2024-01-10); the
    code truncates toward zero and returns [2024-01-10, 2024-02-09).  On the
    example of the claim, a reference after the anchor, the two agree on
    [2024-01-10, 2024-02-09). *)
Theorem custom_boundaries_truncate_toward_zero :
  custom_floor_rule (utc 2024 1 10 0 0 0) (utc 2024 1 5 0 0 0)
  = Ok (utc 2023 12 11 0 0 0, utc 2024 1 10 0 0 0)
  /\ _calculate_period_boundaries custom_calculator (utc 2024 1 5 0 0 0)
     = Ok (utc 2024 1 10 0 0 0, utc 2024 2 9 0 0 0)
  /\ custom_floor_rule (utc 2024 1 10 0 0 0) (utc 2024 1 20 14 30 0)
     = Ok (utc 2024 1 10 0 0 0, utc 2024 2 9 0 0 0)
  /\ _calculate_period_boundaries custom_calculator (utc 2024 1 20 14 30 0)
     = Ok (utc 2024 1 10 0 0 0, utc 2024 2 9 0 0 0).
Proof. repeat split; vm_compute; reflexivity. Qed.

(** C4.  The code departs from the specification.  For the Custom calculator
    anchored at 2024-01-10T00:00:00Z and the reference 2024-01-05T00:00:00Z,
    [get_recent_periods] with count 2 returns the period [2024-01-10,
    2024-02-09) twice: the start does not decrease and the two periods
    overlap. *)
Theorem recent_periods_repeat_before_anchor (now : datetime) :
  get_recent_periods custom_calculator now 2
    (Some (aware (utc 2024 1 5 0 0 0)))
  = Ok [anchor_period now; anchor_period now]
  /\ datetime_lt (BillingPeriod.start_time (anchor_period now))
       (BillingPeriod.start_time (anchor_period now)) = false
  /\ datetime_le (BillingPeriod.end_time (anchor_period now))
       (BillingPeriod.start_time (anchor_period now)) = false.
Proof. repeat split; reflexivity. Qed.

(** The quotient of [_calculate_custom_boundaries] is a float quotient.
    One microsecond before the end of the 7000th period after the anchor it
    rounds up to 7000.0, and the period returned starts after the
    reference. *)
Lemma custom_period_misses_timestamp_far_after_anchor :
  datetime_diff far_reference (utc 2024 1 10 0 0 0)
  = timedelta_days (30 * 7000) - 1
  /\ _calculate_period_boundaries custom_calculator far_reference
     = Ok (utc 2598 12 26 0 0 0, utc 2599 1 25 0 0 0)
  /\ datetime_le (utc 2598 12 26 0 0 0) far_reference = false.
Proof. repeat split; vm_compute; reflexivity. Qed.

(** [replace] and [timedelta] arithmetic keep the offset of the reference.
    Across a change of offset two consecutive Daily periods of
    [get_recent_periods] overlap: the day before the change ends, at its
    own offset, one hour after the day of the change starts. *)
Lemma daily_recent_periods_overlap_across_offset_change (now : datetime) :
  let east (h : Z) (d : Z) :=
    mk_datetime (mk_naive 2024 (if d =? 1 then 4 else 3) d 0 0 0 0)
      (h * 3600 * US_PER_SECOND) in
  get_recent_periods
    (mk_calculator DAILY None None (tz_pytz spring_forward_zone)) now 2
    (Some (aware (utc 2024 3 31 12 30 0)))
  = Ok [period_at now DAILY (east 2 31) (east 2 1);
        period_at now DAILY (east 1 30) (east 1 31)]
  /\ utc_micros (east 1 31) = utc_micros (east 2 31) + 3600 * US_PER_SECOND.
Proof. split; reflexivity. Qed.
(** ** Further properties of the period computations *)

Lemma datetime_add_inv (d d' : datetime) (td : timedelta) :
  datetime_add d td = Ok d' ->
  wf_datetime d' /\ utcoffset d' = utcoffset d
  /\ wall_micros (wall d') = wall_micros (wall d) + td
  /\ utc_micros d' = utc_micros d + td.
Proof.
  unfold datetime_add.
  destruct (naive_add (wall d) td) as [w | e] eqn:E; [| discriminate].
  cbn [bind]. intros [= <-]. destruct (naive_add_inv _ _ _ E) as [Hwf Hm].
  unfold wf_datetime, utc_micros. cbn [wall utcoffset].
  repeat split; (assumption || lia).
Qed.

Lemma daily_boundaries_inv (self : BillingPeriodCalculator)
    (t s e : datetime) :
  _calculate_daily_boundaries self t = Ok (s, e) ->
  utc_micros e = utc_micros s + US_PER_DAY.
Proof.
  unfold _calculate_daily_boundaries. cbv zeta.
  destruct (replace t None None None (Some 0) (Some 0) (Some 0) (Some 0))
    as [sod | ?]; [| discriminate].
  cbn [bind]. destruct (0 <? default 0 (reset_day self)).
  - destruct (replace sod None None None _ None None None) as [rt | ?];
      [| discriminate].
    cbn [bind].
    destruct (if datetime_lt t rt then datetime_sub_td rt (timedelta_days 1)
              else Ok rt) as [st | ?]; [| discriminate].
    cbn [bind].
    destruct (datetime_add st (timedelta_days 1)) as [en | ?] eqn:E;
      [| discriminate].
    cbn [bind]. intros [= <- <-].
    destruct (datetime_add_inv _ _ _ E) as (_ & _ & _ & H).
    rewrite H. unfold timedelta_days. lia.
  - destruct (datetime_add sod (timedelta_days 1)) as [en | ?] eqn:E;
      [| discriminate].
    cbn [bind]. intros [= <- <-].
    destruct (datetime_add_inv _ _ _ E) as (_ & _ & _ & H).
    rewrite H. unfold timedelta_days. lia.
Qed.

Lemma weekly_boundaries_inv (self : BillingPeriodCalculator)
    (t s e : datetime) :
  _calculate_weekly_boundaries self t = Ok (s, e) ->
  utc_micros e = utc_micros s + 7 * US_PER_DAY.
Proof.
  unfold _calculate_weekly_boundaries. cbv zeta.
  destruct (datetime_sub_td t _) as [sow | ?]; [| discriminate].
  cbn [bind].
  destruct (replace sow None None None (Some 0) (Some 0) (Some 0) (Some 0))
    as [st | ?]; [| discriminate].
  cbn [bind].
  destruct (datetime_add st (timedelta_days 7)) as [en | ?] eqn:E;
    [| discriminate].
  cbn [bind]. intros [= <- <-].
  destruct (datetime_add_inv _ _ _ E) as (_ & _ & _ & H).
  rewrite H. unfold timedelta_days. lia.
Qed.

Lemma custom_boundaries_inv (self : BillingPeriodCalculator)
    (a : datetime_arg) (anchor t s e : datetime) :
  custom_start_date self = Some a ->
  _ensure_timezone a (user_tz self) = Ok anchor ->
  _calculate_custom_boundaries self t = Ok (s, e) ->
  exists k : Z,
    utc_micros s = utc_micros anchor + k * (30 * US_PER_DAY)
    /\ utc_micros e = utc_micros s + 30 * US_PER_DAY
    /\ utcoffset s = utcoffset anchor /\ utcoffset e = utcoffset anchor
    /\ wf_datetime s /\ wf_datetime e.
Proof.
  intros Ha Hanchor. unfold _calculate_custom_boundaries.
  rewrite Ha, Hanchor. cbn [bind]. cbv zeta.
  destruct (int_of_float _) as [k | ?]; [| discriminate].
  cbn [bind].
  destruct (datetime_add anchor (timedelta_days 30 * k)) as [st | ?] eqn:Es;
    [| discriminate].
  cbn [bind].
  destruct (datetime_add st (timedelta_days 30)) as [en | ?] eqn:Ee;
    [| discriminate].
  cbn [bind]. intros [= <- <-].
  destruct (datetime_add_inv _ _ _ Es) as (Hws & Hos & _ & Hs).
  destruct (datetime_add_inv _ _ _ Ee) as (Hwe & Hoe & _ & He).
  exists k. rewrite He, Hs, Hoe, Hos. unfold timedelta_days.
  repeat split; (assumption || lia).
Qed.


Lemma monthly_length (self : BillingPeriodCalculator) (t : datetime) :
  wf_datetime t -> MINYEAR < year (wall t) < MAXYEAR ->
  (reset_day self = None \/ exists D, reset_day self = Some D /\ 1 <= D) ->
  exists s e n,
    _calculate_monthly_boundaries self t = Ok (s, e)
    /\ 28 <= n <= 31
    /\ utc_micros e = utc_micros s + n * US_PER_DAY
    /\ datetime_le s t = true /\ datetime_lt t e = true.
Proof.
  intros Hwf Hyear Hreset.
  destruct (monthly_rule self t Hwf Hyear Hreset)
    as (s & e & Heq & Hws & Hwe & Hoffs & Hoffe & Hts & Hte & Hds & Hde
        & Hnext & Hords).
  pose proof (time_micros_bounds _ Hwf) as Htime.
  exists s, e, (toordinal (wall e) - toordinal (wall s)).
  split; [exact Heq |].
  assert (HD : 1 <= default 1 (reset_day self)).
  { destruct Hreset as [-> | (D & -> & HD)]; cbn; lia. }
  apply wf_naive_iff in Hws as Hvs. destruct Hvs as ((_ & Hms & _) & _).
  apply wf_naive_iff in Hwe as Hve. destruct Hve as ((_ & Hme & _) & _).
  pose proof (days_in_month_bounds (year (wall s)) (month (wall s)) Hms) as Hb.
  pose proof (days_in_month_bounds (year (wall e)) (month (wall e)) Hme) as Hb'.
  pose proof (next_month_ordinal (year (wall s)) (month (wall s)) Hms) as Hn.
  rewrite <- Hnext in Hn. destruct Hn as [_ Hn].
  split.
  - unfold toordinal, _ymd2ord in *. rewrite Hds, Hde. lia.
  - unfold datetime_le, datetime_lt, utc_micros.
    rewrite Hoffs, Hoffe, !wall_micros_split, Hts, Hte.
    split; [lia |].
    split; [apply Z.leb_le | apply Z.ltb_lt];
      unfold US_PER_DAY, US_PER_SECOND in *; lia.
Qed.

(** X1. A Weekly period starts at midnight on the weekday [reset_day mod 7]
    (Monday when no reset day is given), on the reference's date or up to
    six days before it, keeps the reference's offset, and ends exactly
    seven days later. *)
Theorem weekly_period_starts_on_reset_weekday (self : BillingPeriodCalculator)
    (t : datetime) :
  period_type self = WEEKLY ->
  wf_datetime t -> 7 <= toordinal (wall t) <= _MAXORDINAL - 7 ->
  exists start_time end_time,
    _calculate_period_boundaries self t = Ok (start_time, end_time)
    /\ weekday (wall start_time) = default 0 (reset_day self) mod 7
    /\ time_micros (wall start_time) = 0
    /\ toordinal (wall t) - 6 <= toordinal (wall start_time)
       <= toordinal (wall t)
    /\ utcoffset start_time = utcoffset t
    /\ utcoffset end_time = utcoffset t
    /\ utc_micros end_time = utc_micros start_time + 7 * US_PER_DAY.
Proof.
  intros Htype Hwf Hord.
  destruct (weekly_rule self t Hwf Hord)
    as (s & e & Heq & Hws & Hwe & Hoffs & Hoffe & Hms & Hme).
  exists s, e. unfold _calculate_period_boundaries. rewrite Htype.
  split; [exact Heq |].
  pose proof (time_micros_bounds _ Hws) as Hts.
  rewrite wall_micros_split in Hms.
  assert (Hos : toordinal (wall s)
                = toordinal (wall t)
                  - (weekday (wall t) - default 0 (reset_day self)) mod 7
                /\ time_micros (wall s) = 0)
    by (unfold US_PER_DAY, US_PER_SECOND in *; lia).
  destruct Hos as [Hos Htz].
  split; [unfold weekday in *; rewrite Hos; zdm |].
  split; [exact Htz |].
  split; [rewrite Hos; zdm |].
  split; [exact Hoffs |]. split; [exact Hoffe |].
  unfold utc_micros. rewrite Hme, Hoffs, Hoffe. lia.
Qed.

Lemma weekly_period_starts_on_reset_weekday_witness :
  exists start_time end_time,
    _calculate_period_boundaries (mk_calculator WEEKLY None (Some 2) tz_utc)
      (utc 2024 1 19 14 30 0)
    = Ok (start_time, end_time)
    /\ weekday (wall start_time) = 2 mod 7
    /\ time_micros (wall start_time) = 0
    /\ toordinal (wall (utc 2024 1 19 14 30 0)) - 6
       <= toordinal (wall start_time)
       <= toordinal (wall (utc 2024 1 19 14 30 0))
    /\ utcoffset start_time = 0
    /\ utcoffset end_time = 0
    /\ utc_micros end_time = utc_micros start_time + 7 * US_PER_DAY.
Proof.
  apply (weekly_period_starts_on_reset_weekday
           (mk_calculator WEEKLY None (Some 2) tz_utc)
           (utc 2024 1 19 14 30 0)).
  - reflexivity.
  - reflexivity.
  - vm_compute. split; discriminate.
Defined.

(** X2. The Weekly computation uses the reset day modulo 7 only: two
    calculators whose reset days are congruent modulo 7 (an absent one
    counting as 0) compute the same boundaries, or raise the same
    exception, for every reference. *)
Theorem weekly_reset_day_modulo_seven (self self' : BillingPeriodCalculator)
    (t : datetime) :
  default 0 (reset_day self) mod 7 = default 0 (reset_day self') mod 7 ->
  _calculate_weekly_boundaries self t = _calculate_weekly_boundaries self' t.
Proof.
  intros Hmod. unfold _calculate_weekly_boundaries. cbv zeta.
  replace ((weekday (wall t) - default 0 (reset_day self)) mod 7)
    with ((weekday (wall t) - default 0 (reset_day self')) mod 7);
    [reflexivity |].
  rewrite (Zminus_mod _ (default 0 (reset_day self'))).
  rewrite (Zminus_mod _ (default 0 (reset_day self))).
  rewrite Hmod. reflexivity.
Qed.

Lemma weekly_reset_day_modulo_seven_witness :
  _calculate_weekly_boundaries (mk_calculator WEEKLY None (Some 9) tz_utc)
    (utc 2024 1 19 14 30 0)
  = _calculate_weekly_boundaries (mk_calculator WEEKLY None (Some (-5)) tz_utc)
      (utc 2024 1 19 14 30 0).
Proof.
  apply (weekly_reset_day_modulo_seven
           (mk_calculator WEEKLY None (Some 9) tz_utc)
           (mk_calculator WEEKLY None (Some (-5)) tz_utc)).
  reflexivity.
Defined.

(** X3. A Monthly period with reset day [D >= 1] (1 when none is given)
    starts at midnight on day [min(D, length of the month)] of a month and
    ends at midnight on day [min(D, length of the month)] of the month
    after it, both with the reference's offset; the reference lies in
    between. *)
Theorem monthly_period_clamps_reset_day (self : BillingPeriodCalculator)
    (t : datetime) :
  period_type self = MONTHLY ->
  (reset_day self = None \/ exists D, reset_day self = Some D /\ 1 <= D) ->
  wf_datetime t -> MINYEAR < year (wall t) < MAXYEAR ->
  let D := default 1 (reset_day self) in
  exists start_time end_time,
    _calculate_period_boundaries self t = Ok (start_time, end_time)
    /\ utcoffset start_time = utcoffset t /\ utcoffset end_time = utcoffset t
    /\ time_micros (wall start_time) = 0 /\ time_micros (wall end_time) = 0
    /\ day (wall start_time)
       = Z.min D (_days_in_month (year (wall start_time))
                    (month (wall start_time)))
    /\ day (wall end_time)
       = Z.min D (_days_in_month (year (wall end_time))
                    (month (wall end_time)))
    /\ (year (wall end_time), month (wall end_time))
       = (if month (wall start_time) =? 12
          then (year (wall start_time) + 1, 1)
          else (year (wall start_time), month (wall start_time) + 1))
    /\ datetime_le start_time t = true /\ datetime_lt t end_time = true.
Proof.
  intros Htype Hreset Hwf Hyear D.
  destruct (monthly_rule self t Hwf Hyear Hreset)
    as (s & e & Heq & Hws & Hwe & Hoffs & Hoffe & Hts & Hte & Hds & Hde
        & Hnext & Hords).
  pose proof (time_micros_bounds _ Hwf) as Htime.
  exists s, e. unfold _calculate_period_boundaries. rewrite Htype.
  split; [exact Heq |].
  split; [exact Hoffs |]. split; [exact Hoffe |].
  split; [exact Hts |]. split; [exact Hte |].
  split; [exact Hds |]. split; [exact Hde |]. split; [exact Hnext |].
  unfold datetime_le, datetime_lt, utc_micros.
  rewrite Hoffs, Hoffe, !wall_micros_split, Hts, Hte.
  split; [apply Z.leb_le | apply Z.ltb_lt];
    unfold US_PER_DAY, US_PER_SECOND in *; lia.
Qed.

Lemma monthly_period_clamps_reset_day_witness :
  exists start_time end_time,
    _calculate_period_boundaries (mk_calculator MONTHLY None (Some 30) tz_utc)
      (utc 2023 2 10 8 0 0)
    = Ok (start_time, end_time)
    /\ utcoffset start_time = 0 /\ utcoffset end_time = 0
    /\ time_micros (wall start_time) = 0 /\ time_micros (wall end_time) = 0
    /\ day (wall start_time)
       = Z.min 30 (_days_in_month (year (wall start_time))
                     (month (wall start_time)))
    /\ day (wall end_time)
       = Z.min 30 (_days_in_month (year (wall end_time))
                     (month (wall end_time)))
    /\ (year (wall end_time), month (wall end_time))
       = (if month (wall start_time) =? 12
          then (year (wall start_time) + 1, 1)
          else (year (wall start_time), month (wall start_time) + 1))
    /\ datetime_le start_time (utc 2023 2 10 8 0 0) = true
    /\ datetime_lt (utc 2023 2 10 8 0 0) end_time = true.
Proof.
  apply (monthly_period_clamps_reset_day
           (mk_calculator MONTHLY None (Some 30) tz_utc)
           (utc 2023 2 10 8 0 0)).
  - reflexivity.
  - right. exists 30. split; [reflexivity | lia].
  - reflexivity.
  - cbn. unfold MINYEAR, MAXYEAR. lia.
Defined.

(** X4. A Monthly period with reset day [D >= 1] is a whole number of days
    long, between 28 and 31, and [duration_days] is exactly that number as
    a float. *)
Theorem monthly_period_length (self : BillingPeriodCalculator)
    (now r t : datetime) :
  period_type self = MONTHLY ->
  (reset_day self = None \/ exists D, reset_day self = Some D /\ 1 <= D) ->
  astimezone r (user_tz self) = Ok t ->
  MINYEAR < year (wall t) < MAXYEAR ->
  exists p n,
    get_current_period self now (Some (aware r)) = Ok p
    /\ 28 <= n <= 31
    /\ datetime_diff (BillingPeriod.end_time p) (BillingPeriod.start_time p)
       = timedelta_days n
    /\ duration_days p = decimal n 0.
Proof.
  intros Htype Hreset Htz Hyear.
  destruct (astimezone_inv _ _ _ Htz) as (Hwf & _ & _).
  destruct (monthly_length self t Hwf Hyear Hreset)
    as (s & e & n & Heq & Hn & Hlen & _).
  unfold get_current_period, _ensure_timezone. rewrite Htz. cbn [bind].
  unfold _calculate_period_boundaries. rewrite Htype, Heq. cbn [bind].
  eexists. exists n. split; [reflexivity |].
  split; [exact Hn |].
  assert (Hdiff : datetime_diff e s = timedelta_days n)
    by (unfold datetime_diff, timedelta_days; lia).
  unfold duration_days.
  cbn [BillingPeriod.end_time BillingPeriod.start_time].
  split; [exact Hdiff |]. rewrite Hdiff.
  assert (Hcases : n = 28 \/ n = 29 \/ n = 30 \/ n = 31) by lia.
  destruct Hcases as [-> | [-> | [-> | ->]]]; vm_compute; reflexivity.
Qed.

Lemma monthly_period_length_witness :
  exists p n,
    get_current_period (mk_calculator MONTHLY None (Some 31) tz_utc)
      (utc 2024 6 1 0 0 0) (Some (aware (utc 2024 2 15 12 0 0)))
    = Ok p
    /\ 28 <= n <= 31
    /\ datetime_diff (BillingPeriod.end_time p) (BillingPeriod.start_time p)
       = timedelta_days n
    /\ duration_days p = decimal n 0.
Proof.
  apply (monthly_period_length
           (mk_calculator MONTHLY None (Some 31) tz_utc)
           (utc 2024 6 1 0 0 0) (utc 2024 2 15 12 0 0)
           (utc 2024 2 15 12 0 0)).
  - reflexivity.
  - right. exists 31. split; [reflexivity | lia].
  - reflexivity.
  - cbn. unfold MINYEAR, MAXYEAR. lia.
Defined.


(** X6. For a Daily, Weekly or Monthly calculator (or a Custom one without
    anchor), [get_period_for_timestamp] returns a period of the
    calculator's type that contains the timestamp; its [is_current] flag
    tells whether it contains the clock reading, and [get_current_period]
    on the same reference returns the same boundaries, flagged current. *)
Theorem period_for_timestamp_contains_timestamp
    (self : BillingPeriodCalculator) (now r t : datetime) :
  reset_day_accepted self ->
  astimezone r (user_tz self) = Ok t ->
  MINYEAR < year (wall t) < MAXYEAR ->
  exists p,
    get_period_for_timestamp self now (aware r) = Ok p
    /\ BillingPeriod.contains_timestamp p r = true
    /\ BillingPeriod.period_type p = period_type self
    /\ BillingPeriod.is_current p = BillingPeriod.contains_timestamp p now
    /\ get_current_period self now (Some (aware r))
       = Ok (BillingPeriod.mk (period_type self) (BillingPeriod.start_time p)
               (BillingPeriod.end_time p) true None).
Proof.
  intros Hacc Htz Hyear.
  destruct (astimezone_inv _ _ _ Htz) as (Hwf & Hutc & _).
  destruct (boundaries_contain_reference self t Hacc Hwf Hyear)
    as (s & e & Heq & Hle & Hlt).
  unfold get_period_for_timestamp, get_current_period, _ensure_timezone.
  rewrite Htz. cbn [bind]. rewrite Heq. cbn [bind].
  eexists. split; [reflexivity |].
  unfold BillingPeriod.contains_timestamp.
  cbn [BillingPeriod.start_time BillingPeriod.end_time
       BillingPeriod.period_type BillingPeriod.is_current].
  split; [| split; [reflexivity | split; reflexivity]].
  unfold datetime_le, datetime_lt in *. rewrite <- Hutc, Hle, Hlt. reflexivity.
Qed.

Lemma period_for_timestamp_contains_timestamp_witness :
  exists p,
    get_period_for_timestamp (mk_calculator DAILY None (Some 6) tz_utc)
      (utc 2024 6 1 0 0 0) (aware (utc 2024 1 15 4 30 0))
    = Ok p
    /\ BillingPeriod.contains_timestamp p (utc 2024 1 15 4 30 0) = true
    /\ BillingPeriod.period_type p = DAILY
    /\ BillingPeriod.is_current p
       = BillingPeriod.contains_timestamp p (utc 2024 6 1 0 0 0)
    /\ get_current_period (mk_calculator DAILY None (Some 6) tz_utc)
         (utc 2024 6 1 0 0 0) (Some (aware (utc 2024 1 15 4 30 0)))
       = Ok (BillingPeriod.mk DAILY (BillingPeriod.start_time p)
               (BillingPeriod.end_time p) true None).
Proof.
  apply (period_for_timestamp_contains_timestamp
           (mk_calculator DAILY None (Some 6) tz_utc)
           (utc 2024 6 1 0 0 0) (utc 2024 1 15 4 30 0)
           (utc 2024 1 15 4 30 0)).
  - right. exists 6. split; [reflexivity | lia].
  - reflexivity.
  - cbn. unfold MINYEAR, MAXYEAR. lia.
Defined.

(** In a contiguous series the periods start later the earlier they stand
    in the list. *)
Lemma contiguous_starts (ps : list BillingPeriod.t) :
  contiguous ps ->
  forall (k i : nat) (p q : BillingPeriod.t),
    ps !! i = Some p -> ps !! (i + k)%nat = Some q ->
    utc_micros (BillingPeriod.start_time q)
    <= utc_micros (BillingPeriod.start_time p).
Proof.
  intros Hc k. induction k as [| k IH]; intros i p q Hp Hq.
  - rewrite Nat.add_0_r in Hq. rewrite Hp in Hq. injection Hq as <-. lia.
  - replace (i + S k)%nat with (S (i + k)) in Hq by lia.
    destruct (ps !! (i + k)%nat) as [m |] eqn:Hm.
    + specialize (IH i p m Hp Hm).
      destruct (Hc (i + k)%nat m q Hm Hq) as [_ Hlt].
      apply Z.ltb_lt in Hlt. lia.
    + apply lookup_ge_None in Hm. apply lookup_lt_Some in Hq. lia.
Qed.

Lemma contiguous_later_ends_before (ps : list BillingPeriod.t) :
  contiguous ps ->
  forall (i j : nat) (p q : BillingPeriod.t),
    (i < j)%nat -> ps !! i = Some p -> ps !! j = Some q ->
    utc_micros (BillingPeriod.end_time q)
    <= utc_micros (BillingPeriod.start_time p).
Proof.
  intros Hc i j p q Hij Hp Hq.
  destruct j as [| j]; [lia |].
  destruct (ps !! j) as [m |] eqn:Hm.
  - destruct (Hc j m q Hm Hq) as [Hend _]. rewrite Hend.
    apply (contiguous_starts ps Hc (j - i) i p m Hp).
    replace (i + (j - i))%nat with j by lia. exact Hm.
  - apply lookup_ge_None in Hm. apply lookup_lt_Some in Hq. lia.
Qed.

Lemma contiguous_disjoint (ps : list BillingPeriod.t) :
  contiguous ps -> pairwise_disjoint ps.
Proof.
  intros Hc i j p q ts Hij Hp Hq Hin.
  unfold BillingPeriod.contains_timestamp, datetime_le, datetime_lt in *.
  apply andb_true_iff in Hin. destruct Hin as [H1 H2].
  apply Z.leb_le in H1. apply Z.ltb_lt in H2.
  apply andb_false_iff.
  destruct (Nat.lt_ge_cases i j) as [Hlt | Hge].
  - pose proof (contiguous_later_ends_before ps Hc i j p q Hlt Hp Hq).
    right. apply Z.ltb_ge. lia.
  - assert (Hlt : (j < i)%nat) by lia.
    pose proof (contiguous_later_ends_before ps Hc j i q p Hlt Hq Hp).
    left. apply Z.leb_gt. lia.
Qed.

(** X7. For a Daily, Weekly or Monthly calculator in UTC (or a Custom one
    without anchor), [get_recent_periods] returns [count] periods, most
    recent first: the first contains the reference, each one ends exactly
    where the one before it in the list starts, and no instant lies in two
    of them. *)
Theorem recent_periods_tile_the_past (self : BillingPeriodCalculator)
    (now : datetime) (count : Z) (r t : datetime) :
  user_tz self = tz_utc -> reset_day_accepted self ->
  astimezone r tz_utc = Ok t ->
  398 + 32 * Z.max 0 count <= toordinal (wall t) <= _MAXORDINAL - 365 ->
  exists ps,
    get_recent_periods self now count (Some (aware r)) = Ok ps
    /\ length ps = Z.to_nat count
    /\ (forall p, head ps = Some p ->
        BillingPeriod.contains_timestamp p r = true)
    /\ contiguous ps
    /\ pairwise_disjoint ps.
Proof.
  intros Hutc Hacc Htz Hord.
  destruct (astimezone_inv _ _ _ Htz) as (Hwf & Hinst & Hoff).
  cbn [tz_fromutc_offset] in Hoff.
  destruct (recent_periods_loop_contiguous self now Hutc Hacc
              (Z.to_nat count) t [] Hwf Hoff ltac:(lia))
    as (ps & Hloop & Hlen & Hchain & Hhead).
  exists ps. unfold get_recent_periods, _ensure_timezone.
  rewrite Hutc, Htz. cbn [bind]. rewrite Hloop. cbn [app].
  split; [reflexivity |]. split; [exact Hlen |].
  split; [| split; [exact Hchain | apply contiguous_disjoint, Hchain]].
  intros p Hp. specialize (Hhead p Hp).
  assert (Hyear : MINYEAR < year (wall t) < MAXYEAR)
    by (apply year_of_safe_ordinal; [exact Hwf | lia]).
  destruct (boundaries_contain_reference self t Hacc Hwf Hyear)
    as (s & e & Heq & Hle & Hlt).
  rewrite Heq in Hhead. injection Hhead as Hs He.
  unfold BillingPeriod.contains_timestamp, datetime_le, datetime_lt in *.
  rewrite <- Hs, <- He, <- Hinst, Hle, Hlt. reflexivity.
Qed.

Lemma recent_periods_tile_the_past_witness :
  exists ps,
    get_recent_periods (mk_calculator WEEKLY None (Some 2) tz_utc)
      (utc 2024 6 1 0 0 0) 4 (Some (aware (utc 2024 1 19 14 30 0)))
    = Ok ps
    /\ length ps = Z.to_nat 4
    /\ (forall p, head ps = Some p ->
        BillingPeriod.contains_timestamp p (utc 2024 1 19 14 30 0) = true)
    /\ contiguous ps
    /\ pairwise_disjoint ps.
Proof.
  apply (recent_periods_tile_the_past
           (mk_calculator WEEKLY None (Some 2) tz_utc)
           (utc 2024 6 1 0 0 0) 4 (utc 2024 1 19 14 30 0)
           (utc 2024 1 19 14 30 0)).
  - reflexivity.
  - exact I.
  - reflexivity.
  - vm_compute. split; discriminate.
Defined.

Lemma recent_periods_loop_length (self : BillingPeriodCalculator)
    (now : datetime) (n : nat) :
  forall (t : datetime) (acc ps : list BillingPeriod.t),
    recent_periods_loop self now n t acc = Ok ps ->
    length ps = (length acc + n)%nat
    /\ (Forall (fun p => BillingPeriod.period_type p = period_type self) acc ->
        Forall (fun p => BillingPeriod.period_type p = period_type self) ps).
Proof.
  induction n as [| n IH]; intros t acc ps.
  - cbn [recent_periods_loop]. intros [= <-]. split; [lia | tauto].
  - cbn [recent_periods_loop].
    destruct (get_period_for_timestamp self now (aware t)) as [p | ?] eqn:Ep;
      [| discriminate].
    cbn [bind].
    destruct (datetime_sub_td (BillingPeriod.start_time p)
                (timedelta_seconds 1)) as [t' | ?]; [| discriminate].
    cbn [bind]. intros Hloop. destruct (IH _ _ _ Hloop) as [Hlen Hall].
    rewrite length_app in Hlen. cbn [length] in Hlen.
    split; [lia |]. intros Hacc. apply Hall.
    apply Forall_app. split; [exact Hacc |].
    apply Forall_cons. split; [| apply Forall_nil; exact I].
    unfold get_period_for_timestamp in Ep.
    destruct (_ensure_timezone (aware t) (user_tz self)) as [t0 | ?];
      [| discriminate].
    cbn [bind] in Ep.
    destruct (_calculate_period_boundaries self t0) as [[s e] | ?];
      [| discriminate].
    cbn [bind] in Ep. injection Ep as <-. reflexivity.
Qed.

(** X8. Whenever [get_recent_periods] returns, for any calculator and any
    reference, the list has exactly [count] periods (none for a count of
    zero or less), each of the calculator's period type. *)
Theorem recent_periods_count (self : BillingPeriodCalculator)
    (now : datetime) (count : Z) (reference_time : option datetime_arg)
    (ps : list BillingPeriod.t) :
  get_recent_periods self now count reference_time = Ok ps ->
  length ps = Z.to_nat count
  /\ Forall (fun p => BillingPeriod.period_type p = period_type self) ps.
Proof.
  unfold get_recent_periods.
  destruct (match reference_time with
            | Some r => _ensure_timezone r (user_tz self)
            | None => Ok now
            end) as [t | ?]; [| discriminate].
  cbn [bind]. intros Hloop.
  destruct (recent_periods_loop_length _ _ _ _ _ _ Hloop) as [Hlen Hall].
  split; [exact Hlen |]. apply Hall. apply Forall_nil. exact I.
Qed.

Lemma recent_periods_count_witness :
  length [period_at (utc 2024 6 1 0 0 0) DAILY
            (utc 2024 1 15 0 0 0) (utc 2024 1 16 0 0 0);
          period_at (utc 2024 6 1 0 0 0) DAILY
            (utc 2024 1 14 0 0 0) (utc 2024 1 15 0 0 0)]
  = Z.to_nat 2
  /\ Forall (fun p => BillingPeriod.period_type p = DAILY)
       [period_at (utc 2024 6 1 0 0 0) DAILY
          (utc 2024 1 15 0 0 0) (utc 2024 1 16 0 0 0);
        period_at (utc 2024 6 1 0 0 0) DAILY
          (utc 2024 1 14 0 0 0) (utc 2024 1 15 0 0 0)].
Proof.
  apply (recent_periods_count (mk_calculator DAILY None None tz_utc)
           (utc 2024 6 1 0 0 0) 2 (Some (aware (utc 2024 1 15 14 30 0)))).
  vm_compute. reflexivity.
Defined.




(** X11. Whatever a Custom calculator with an anchor returns, its periods
    lie on the anchor's grid: the start is the anchor plus a whole number
    of 30-day steps, the end is exactly 30 days after the start, and both
    carry the anchor's offset. *)
Theorem custom_period_on_anchor_grid (self : BillingPeriodCalculator)
    (a : datetime_arg) (anchor t start_time end_time : datetime) :
  period_type self = CUSTOM ->
  custom_start_date self = Some a ->
  _ensure_timezone a (user_tz self) = Ok anchor ->
  _calculate_period_boundaries self t = Ok (start_time, end_time) ->
  exists k : Z,
    utc_micros start_time = utc_micros anchor + k * (30 * US_PER_DAY)
    /\ utc_micros end_time = utc_micros start_time + 30 * US_PER_DAY
    /\ utcoffset start_time = utcoffset anchor
    /\ utcoffset end_time = utcoffset anchor.
Proof.
  intros Htype Ha Hanchor. unfold _calculate_period_boundaries.
  rewrite Htype. intros Heq.
  destruct (custom_boundaries_inv self a anchor t _ _ Ha Hanchor Heq)
    as (k & Hs & He & Hos & Hoe & _).
  exists k. tauto.
Qed.

Lemma custom_period_on_anchor_grid_witness :
  exists k : Z,
    utc_micros (utc 2024 3 10 0 0 0)
    = utc_micros (utc 2024 1 10 0 0 0) + k * (30 * US_PER_DAY)
    /\ utc_micros (utc 2024 4 9 0 0 0)
       = utc_micros (utc 2024 3 10 0 0 0) + 30 * US_PER_DAY
    /\ utcoffset (utc 2024 3 10 0 0 0) = utcoffset (utc 2024 1 10 0 0 0)
    /\ utcoffset (utc 2024 4 9 0 0 0) = utcoffset (utc 2024 1 10 0 0 0).
Proof.
  apply (custom_period_on_anchor_grid custom_calculator
           (aware (utc 2024 1 10 0 0 0)) (utc 2024 1 10 0 0 0)
           (utc 2024 3 20 12 0 0)).
  - reflexivity.
  - reflexivity.
  - reflexivity.
  - vm_compute. reflexivity.
Defined.

Lemma boundaries_nominal_length (self : BillingPeriodCalculator)
    (t s e : datetime) (n : Z) :
  _calculate_period_boundaries self t = Ok (s, e) ->
  nominal_days self = Some n ->
  (n = 1 \/ n = 7 \/ n = 30)
  /\ datetime_diff e s = timedelta_days n.
Proof.
  unfold _calculate_period_boundaries, nominal_days, datetime_diff,
    timedelta_days.
  destruct (period_type self).
  - intros Heq [= <-]. rewrite (daily_boundaries_inv _ _ _ _ Heq).
    split; [tauto | lia].
  - intros Heq [= <-]. rewrite (weekly_boundaries_inv _ _ _ _ Heq).
    split; [tauto | lia].
  - intros _ [=].
  - destruct (custom_start_date self) as [a |] eqn:Ha.
    + intros Heq [= <-].
      destruct (_ensure_timezone a (user_tz self)) as [anchor | ?] eqn:Hanchor.
      * destruct (custom_boundaries_inv self a anchor t _ _ Ha Hanchor Heq)
          as (k & _ & He & _).
        rewrite He. split; [tauto | lia].
      * unfold _calculate_custom_boundaries in Heq.
        rewrite Ha, Hanchor in Heq. discriminate Heq.
    + intros Heq [= <-]. unfold _calculate_custom_boundaries in Heq.
      rewrite Ha in Heq. rewrite (daily_boundaries_inv _ _ _ _ Heq).
      split; [tauto | lia].
Qed.

(** X12. Every period a Daily, Weekly or Custom calculator returns has the
    nominal length exactly: [duration_days] is 1.0 and [duration_hours]
    24.0 for Daily (and Custom without anchor), 7.0 and 168.0 for Weekly,
    30.0 and 720.0 for Custom with an anchor, whatever the reference, the
    reset day and the zone. *)
Theorem fixed_length_period_duration (self : BillingPeriodCalculator)
    (now : datetime) (timestamp : datetime_arg) (p : BillingPeriod.t)
    (n : Z) :
  get_period_for_timestamp self now timestamp = Ok p ->
  nominal_days self = Some n ->
  datetime_diff (BillingPeriod.end_time p) (BillingPeriod.start_time p)
  = timedelta_days n
  /\ duration_days p = decimal n 0
  /\ duration_hours p = decimal (24 * n) 0.
Proof.
  unfold get_period_for_timestamp.
  destruct (_ensure_timezone timestamp (user_tz self)) as [t | ?];
    [| discriminate].
  cbn [bind].
  destruct (_calculate_period_boundaries self t) as [[s e] | ?] eqn:Heq;
    [| discriminate].
  cbn [bind]. intros [= <-] Hn.
  destruct (boundaries_nominal_length self t s e n Heq Hn) as [Hcases Hdiff].
  unfold duration_days, duration_hours.
  cbn [BillingPeriod.end_time BillingPeriod.start_time].
  rewrite Hdiff. split; [reflexivity |].
  destruct Hcases as [-> | [-> | ->]]; vm_compute; split; reflexivity.
Qed.

Lemma fixed_length_period_duration_witness :
  datetime_diff (utc 2024 1 24 0 0 0) (utc 2024 1 17 0 0 0) = timedelta_days 7
  /\ duration_days
       (period_at (utc 2024 6 1 0 0 0) WEEKLY
          (utc 2024 1 17 0 0 0) (utc 2024 1 24 0 0 0))
     = decimal 7 0
  /\ duration_hours
       (period_at (utc 2024 6 1 0 0 0) WEEKLY
          (utc 2024 1 17 0 0 0) (utc 2024 1 24 0 0 0))
     = decimal (24 * 7) 0.
Proof.
  apply (fixed_length_period_duration
           (mk_calculator WEEKLY None (Some 2) tz_utc)
           (utc 2024 6 1 0 0 0) (aware (utc 2024 1 19 14 30 0))
           (period_at (utc 2024 6 1 0 0 0) WEEKLY
              (utc 2024 1 17 0 0 0) (utc 2024 1 24 0 0 0))
           7).
  - vm_compute. reflexivity.
  - reflexivity.
Defined.
(** ** Further properties of the aggregation *)

Section SummaryFields.
Import BillingPeriodSummary.
Variable σ : store.

Lemma accumulate_app (init : option float) (cs cs' : list float) :
  accumulate init (cs ++ cs') = accumulate (accumulate init cs) cs'.
Proof. apply fold_left_app. Qed.

Lemma accumulate_some (x : float) (cs : list float) :
  accumulate (Some x) cs = Some (fold_left float_add cs x).
Proof.
  revert x. induction cs as [| c cs IH]; intros x; [reflexivity |].
  cbn [accumulate fold_left]. apply IH.
Qed.

Lemma accumulate_none (cs : list float) :
  accumulate None cs = running_sum cs.
Proof.
  destruct cs as [| c cs]; [reflexivity |].
  cbn [accumulate fold_left running_sum]. apply accumulate_some.
Qed.

Lemma costs_of_model_app (m : string) (es es' : list UsageEntry.t) :
  costs_of_model m (es ++ es') = costs_of_model m es ++ costs_of_model m es'.
Proof. unfold costs_of_model. rewrite filter_app, map_app. reflexivity. Qed.

Lemma loop_per_model_costs_lookup (es : list UsageEntry.t) (st : loop_state)
    (m : string) :
  loop_per_model_costs (fold_left loop_body es st) !! m
  = accumulate (loop_per_model_costs st !! m) (costs_of_model m es).
Proof.
  revert st. induction es as [| e es IH]; intros st; [reflexivity |].
  cbn [fold_left]. rewrite IH. unfold costs_of_model at 2.
  rewrite filter_cons. cbn [loop_body loop_per_model_costs].
  destruct (decide (UsageEntry.model e = m)) as [Heq | Hne].
  - fold (costs_of_model m es). unfold accumulate. cbn [map fold_left].
    f_equal. rewrite Heq.
    destruct (loop_per_model_costs st !! m); apply lookup_insert_eq.
  - fold (costs_of_model m es). unfold accumulate. f_equal.
    destruct (loop_per_model_costs st !! UsageEntry.model e);
      apply lookup_insert_ne; exact Hne.
Qed.

Lemma add_session_block_per_model_costs (s : t) (b : ref) (m : string) :
  per_model_costs (add_session_block σ s b) !! m
  = accumulate (per_model_costs s !! m)
      (costs_of_model m (in_period (period s) (SessionBlock.entries (σ b)))).
Proof.
  unfold add_session_block. rewrite relevant_entries_in_period.
  destruct (in_period _ _) as [| e es'] eqn:E; [reflexivity |].
  cbn [per_model_costs]. rewrite loop_per_model_costs_lookup. reflexivity.
Qed.

Lemma add_session_block_total_tokens (s : t) (b : ref) :
  total_tokens (add_session_block σ s b) = total_tokens s.
Proof.
  unfold add_session_block. destruct (relevant_entries s (σ b)); reflexivity.
Qed.

Lemma fold_per_model_costs (blocks : list ref) (s : t) (m : string) :
  per_model_costs (fold_left (add_session_block σ) blocks s) !! m
  = accumulate (per_model_costs s !! m)
      (costs_of_model m (in_period_entries σ (period s) blocks)).
Proof.
  revert s. induction blocks as [| b blocks IH]; intros s; [reflexivity |].
  cbn [fold_left]. rewrite IH, add_session_block_period.
  rewrite add_session_block_per_model_costs.
  unfold in_period_entries. cbn [map concat].
  rewrite costs_of_model_app, accumulate_app. reflexivity.
Qed.

Lemma fold_total_tokens (blocks : list ref) (s : t) :
  total_tokens (fold_left (add_session_block σ) blocks s) = total_tokens s.
Proof.
  revert s. induction blocks as [| b blocks IH]; intros s; [reflexivity |].
  cbn [fold_left]. rewrite IH. apply add_session_block_total_tokens.
Qed.

Lemma fold_session_blocks (blocks : list ref) (s : t) :
  session_blocks (fold_left (add_session_block σ) blocks s)
  = session_blocks s
    ++ filter (fun b => has_usage_in σ (period s) b = true) blocks.
Proof.
  revert s. induction blocks as [| b blocks IH]; intros s.
  - cbn. rewrite app_nil_r. reflexivity.
  - cbn [fold_left]. rewrite IH, add_session_block_period.
    rewrite add_session_block_session_blocks, filter_cons.
    destruct (in_period (period s) (SessionBlock.entries (σ b))) eqn:E.
    + rewrite decide_False; [reflexivity |].
      unfold has_usage_in. rewrite E. discriminate.
    + rewrite decide_True; [rewrite <- app_assoc; reflexivity |].
      unfold has_usage_in. rewrite E. reflexivity.
Qed.
End SummaryFields.

(** X13. The summary [create_period_summary] builds retains, in the order
    given, exactly the blocks that have at least one entry inside the
    period (a block listed twice is retained twice), so never more blocks
    than it was given. *)
Theorem summary_retains_blocks_with_usage (σ : store) (p : BillingPeriod.t)
    (blocks : list ref) :
  let s := create_period_summary σ p blocks in
  BillingPeriodSummary.session_blocks s
  = filter (fun b => has_usage_in σ p b = true) blocks
  /\ (forall b, b ∈ BillingPeriodSummary.session_blocks s
                <-> b ∈ blocks /\ has_usage_in σ p b = true)
  /\ (length (BillingPeriodSummary.session_blocks s) <= length blocks)%nat.
Proof.
  cbv zeta. unfold create_period_summary.
  rewrite fold_session_blocks. cbn [BillingPeriodSummary.new
    BillingPeriodSummary.session_blocks BillingPeriodSummary.period app].
  split; [reflexivity |]. split.
  - intros b. rewrite list_elem_of_filter. tauto.
  - apply length_filter.
Qed.

(** X14. [add_session_block] never updates the field [total_tokens]: in a
    summary built by [create_period_summary] it is 0 whatever the blocks
    hold, while [total_tokens_calculated] is the sum of the four token
    kinds over the in-period entries. *)
Theorem summary_total_tokens_field_stays_zero (σ : store)
    (p : BillingPeriod.t) (blocks : list ref) :
  let s := create_period_summary σ p blocks in
  let es := in_period_entries σ p blocks in
  BillingPeriodSummary.total_tokens s = 0
  /\ BillingPeriodSummary.total_tokens_calculated s
     = sum_of UsageEntry.input_tokens es
       + sum_of UsageEntry.output_tokens es
       + sum_of UsageEntry.cache_creation_tokens es
       + sum_of UsageEntry.cache_read_tokens es.
Proof.
  cbv zeta. unfold create_period_summary. rewrite fold_total_tokens.
  split; [reflexivity |].
  destruct (fold_add_session_block σ blocks (BillingPeriodSummary.new p))
    as (_ & _ & Ht & _).
  unfold BillingPeriodSummary.total_tokens_calculated. rewrite Ht.
  reflexivity.
Qed.

(** X15. In a summary built by [create_period_summary], [per_model_costs]
    has a key for exactly the model names of the in-period entries, the
    empty name included; the value of a key is the first cost of that
    model with the later ones added from the left, across blocks; and
    every name in [models_used] is a key. *)
Theorem summary_per_model_costs (σ : store) (p : BillingPeriod.t)
    (blocks : list ref) :
  let s := create_period_summary σ p blocks in
  let es := in_period_entries σ p blocks in
  (forall m,
     BillingPeriodSummary.per_model_costs s !! m
     = running_sum (costs_of_model m es))
  /\ (forall m,
        is_Some (BillingPeriodSummary.per_model_costs s !! m)
        <-> m ∈ map UsageEntry.model es)
  /\ (forall m,
        m ∈ BillingPeriodSummary.models_used s ->
        is_Some (BillingPeriodSummary.per_model_costs s !! m)).
Proof.
  cbv zeta.
  assert (Hlookup : forall m,
            BillingPeriodSummary.per_model_costs
              (create_period_summary σ p blocks) !! m
            = running_sum (costs_of_model m (in_period_entries σ p blocks))).
  { intros m. unfold create_period_summary. rewrite fold_per_model_costs.
    cbn [BillingPeriodSummary.new BillingPeriodSummary.per_model_costs
         BillingPeriodSummary.period].
    rewrite lookup_empty. apply accumulate_none. }
  assert (Hkeys : forall m,
            is_Some (BillingPeriodSummary.per_model_costs
                       (create_period_summary σ p blocks) !! m)
            <-> m ∈ map UsageEntry.model (in_period_entries σ p blocks)).
  { intros m. rewrite Hlookup. unfold costs_of_model.
    generalize (in_period_entries σ p blocks) as es. intros es.
    rewrite list_elem_of_fmap. split.
    - intros Hsome.
      destruct (filter (fun e => UsageEntry.model e = m) es) as [| e l] eqn:E.
      + destruct Hsome as [x Hx]. discriminate Hx.
      + assert (He : e ∈ filter (fun e => UsageEntry.model e = m) es)
          by (rewrite E; apply elem_of_cons; left; reflexivity).
        apply list_elem_of_filter in He. destruct He as [Hm Hin].
        exists e. split; [symmetry; exact Hm | exact Hin].
    - intros (e & Hm & Hin).
      assert (He : e ∈ filter (fun e => UsageEntry.model e = m) es)
        by (apply list_elem_of_filter; split; [symmetry; exact Hm | exact Hin]).
      destruct (filter (fun e => UsageEntry.model e = m) es) as [| e' l].
      + apply elem_of_nil in He. destruct He.
      + cbn. eexists. reflexivity. }
  split; [exact Hlookup |]. split; [exact Hkeys |].
  intros m Hm. apply Hkeys.
  destruct (fold_add_session_block σ blocks (BillingPeriodSummary.new p))
    as (_ & _ & _ & Hmodels & _).
  unfold create_period_summary in Hm. rewrite Hmodels in Hm.
  cbn [BillingPeriodSummary.new BillingPeriodSummary.models_used
       BillingPeriodSummary.period] in Hm.
  rewrite models_used_first_seen in Hm.
  apply (proj1 (first_seen_elem _ _)) in Hm.
  apply list_elem_of_filter in Hm. exact (proj2 Hm).
Qed.


Section UsageBounds.
Import BillingPeriodSummary.
Variable σ : store.


End UsageBounds.









Lemma in_period_entries_Permutation (σ : store) (p : BillingPeriod.t)
    (blocks blocks' : list ref) :
  blocks ≡ₚ blocks' ->
  in_period_entries σ p blocks ≡ₚ in_period_entries σ p blocks'.
Proof.
  unfold in_period_entries. intros Hperm.
  induction Hperm as [| b l l' _ IH | b b' l | l l' l'' _ IH1 _ IH2].
  - reflexivity.
  - cbn [map concat]. rewrite IH. reflexivity.
  - cbn [map concat]. rewrite !app_assoc.
    apply Permutation_app_tail, Permutation_app_comm.
  - etransitivity; eassumption.
Qed.

Lemma sum_of_Permutation (f : UsageEntry.t -> Z) (es es' : list UsageEntry.t) :
  es ≡ₚ es' -> sum_of f es = sum_of f es'.
Proof.
  unfold sum_of. intros Hperm.
  induction Hperm as [| e l l' _ IH | e e' l | l l' l'' _ IH1 _ IH2];
    cbn [foldr]; lia.
Qed.

(** X18. The order in which the blocks are passed does not matter for the
    counts: summaries of two permutations of the same blocks have the same
    entry count and token counts, and retain the same blocks and list the
    same models up to order.  (The float [total_cost] is summed in the given
    order and is not covered.) *)
Theorem summary_counts_ignore_block_order (σ : store) (p : BillingPeriod.t)
    (blocks blocks' : list ref) :
  blocks ≡ₚ blocks' ->
  let s := create_period_summary σ p blocks in
  let s' := create_period_summary σ p blocks' in
  BillingPeriodSummary.entries_count s = BillingPeriodSummary.entries_count s'
  /\ BillingPeriodSummary.token_counts s
     = BillingPeriodSummary.token_counts s'
  /\ BillingPeriodSummary.session_blocks s
     ≡ₚ BillingPeriodSummary.session_blocks s'
  /\ BillingPeriodSummary.models_used s ≡ₚ BillingPeriodSummary.models_used s'.
Proof.
  intros Hperm. cbv zeta.
  pose proof (in_period_entries_Permutation σ p _ _ Hperm) as Hes.
  destruct (fold_add_session_block σ blocks (BillingPeriodSummary.new p))
    as (_ & Hc & Ht & Hm & _).
  destruct (fold_add_session_block σ blocks' (BillingPeriodSummary.new p))
    as (_ & Hc' & Ht' & Hm' & _).
  unfold create_period_summary.
  rewrite Hc, Hc', Ht, Ht', Hm, Hm', !fold_session_blocks.
  cbn [BillingPeriodSummary.new BillingPeriodSummary.period
       BillingPeriodSummary.entries_count BillingPeriodSummary.token_counts
       BillingPeriodSummary.models_used BillingPeriodSummary.session_blocks
       app].
  split; [rewrite (Permutation_length Hes); reflexivity |].
  split; [rewrite !(sum_of_Permutation _ _ _ Hes); reflexivity |].
  split; [rewrite Hperm; reflexivity |].
  rewrite !models_used_first_seen.
  apply NoDup_Permutation; [apply first_seen_NoDup | apply first_seen_NoDup |].
  intros m. rewrite !first_seen_elem, !list_elem_of_filter, Hes. reflexivity.
Qed.

Lemma summary_counts_ignore_block_order_witness :
  let s := create_period_summary two_block_store test_period [1; 2]%positive in
  let s' :=
    create_period_summary two_block_store test_period [2; 1]%positive in
  BillingPeriodSummary.entries_count s = BillingPeriodSummary.entries_count s'
  /\ BillingPeriodSummary.token_counts s
     = BillingPeriodSummary.token_counts s'
  /\ BillingPeriodSummary.session_blocks s
     ≡ₚ BillingPeriodSummary.session_blocks s'
  /\ BillingPeriodSummary.models_used s ≡ₚ BillingPeriodSummary.models_used s'.
Proof.
  apply (summary_counts_ignore_block_order two_block_store test_period
           [1; 2]%positive [2; 1]%positive).
  apply perm_swap.
Defined.
(** ** Model names *)

Lemma ascii_lower_idempotent (c : Ascii.ascii) :
  ascii_lower (ascii_lower c) = ascii_lower c.
Proof.
  destruct c as [[] [] [] [] [] [] [] []]; vm_compute; reflexivity.
Qed.

Lemma lower_idempotent (s : string) : lower (lower s) = lower s.
Proof.
  induction s as [| c s IH]; [reflexivity |].
  cbn [lower]. rewrite ascii_lower_idempotent, IH. reflexivity.
Qed.

Lemma lower_empty (s : string) : lower s = ""%string <-> s = ""%string.
Proof. destruct s; cbn [lower]; split; intros H; (reflexivity || discriminate H). Qed.

Lemma starts_with_app_l (a b s : string) :
  starts_with (a ++ b) s = true -> starts_with a s = true.
Proof.
  revert s. induction a as [| c a IH]; intros s; [reflexivity |].
  destruct s as [| d s]; [intros H; discriminate H |].
  cbn [String.append starts_with]. intros H.
  apply andb_true_iff in H. destruct H as [H1 H2].
  rewrite H1, (IH _ H2). reflexivity.
Qed.

Lemma str_in_tail (sub : string) (c : Ascii.ascii) (s : string) :
  str_in sub s = true -> str_in sub (String c s) = true.
Proof.
  intros H. cbn [str_in]. rewrite H. apply orb_true_r.
Qed.

Lemma starts_with_str_in (sub s : string) :
  starts_with sub s = true -> str_in sub s = true.
Proof. intros H. destruct s; cbn [str_in]; rewrite H; reflexivity. Qed.

Lemma starts_with_app_r (a b s : string) :
  starts_with (a ++ b) s = true -> str_in b s = true.
Proof.
  revert s. induction a as [| c a IH]; intros s.
  - cbn [String.append]. apply starts_with_str_in.
  - destruct s as [| d s]; [intros H; discriminate H |].
    cbn [String.append starts_with]. intros H.
    apply andb_true_iff in H. destruct H as [_ H2].
    apply str_in_tail, IH, H2.
Qed.

Lemma str_in_app_l (a b s : string) :
  str_in (a ++ b) s = true -> str_in a s = true.
Proof.
  induction s as [| d s IH]; cbn [str_in]; intros H;
    apply orb_true_iff in H; destruct H as [H | H].
  - rewrite (starts_with_app_l _ _ _ H). reflexivity.
  - discriminate H.
  - rewrite (starts_with_app_l _ _ _ H). reflexivity.
  - rewrite (IH H). apply orb_true_r.
Qed.

Lemma str_in_app_r (a b s : string) :
  str_in (a ++ b) s = true -> str_in b s = true.
Proof.
  induction s as [| d s IH]; intros H.
  - cbn [str_in] in H. apply orb_true_iff in H. destruct H as [H | H];
      [exact (starts_with_app_r _ _ _ H) | discriminate H].
  - cbn [str_in] in H. apply orb_true_iff in H. destruct H as [H | H];
      [exact (starts_with_app_r _ _ _ H) |].
    apply str_in_tail, IH, H.
Qed.

(** The six version-4 patterns all mention a family. *)
Lemma version_four_patterns (s : string) :
  str_in "opus" s = false -> str_in "sonnet" s = false ->
  str_in "haiku" s = false ->
  str_in "claude-opus-4-" s || str_in "claude-sonnet-4-" s
  || str_in "claude-haiku-4-" s || str_in "sonnet-4-" s
  || str_in "opus-4-" s || str_in "haiku-4-" s
  = false.
Proof.
  intros Ho Hs Hh.
  assert (H1 : str_in "opus-4-" s = false).
  { destruct (str_in "opus-4-" s) eqn:E; [| reflexivity].
    rewrite (str_in_app_l "opus" "-4-" s E) in Ho. discriminate Ho. }
  assert (H2 : str_in "sonnet-4-" s = false).
  { destruct (str_in "sonnet-4-" s) eqn:E; [| reflexivity].
    rewrite (str_in_app_l "sonnet" "-4-" s E) in Hs. discriminate Hs. }
  assert (H3 : str_in "haiku-4-" s = false).
  { destruct (str_in "haiku-4-" s) eqn:E; [| reflexivity].
    rewrite (str_in_app_l "haiku" "-4-" s E) in Hh. discriminate Hh. }
  assert (H4 : str_in "claude-opus-4-" s = false).
  { destruct (str_in "claude-opus-4-" s) eqn:E; [| reflexivity].
    rewrite (str_in_app_r "claude-" "opus-4-" s E) in H1. discriminate H1. }
  assert (H5 : str_in "claude-sonnet-4-" s = false).
  { destruct (str_in "claude-sonnet-4-" s) eqn:E; [| reflexivity].
    rewrite (str_in_app_r "claude-" "sonnet-4-" s E) in H2. discriminate H2. }
  assert (H6 : str_in "claude-haiku-4-" s = false).
  { destruct (str_in "claude-haiku-4-" s) eqn:E; [| reflexivity].
    rewrite (str_in_app_r "claude-" "haiku-4-" s E) in H3. discriminate H3. }
  rewrite H1, H2, H3, H4, H5, H6. reflexivity.
Qed.

(** The six results [normalize_model_name] can give for a non-empty name:
    the lowercased name, which it then maps to itself, one of five keys,
    or the name as it is. *)
Lemma normalize_model_name_cases (model : string) :
  model <> ""%string ->
  (normalize_model_name model = lower model
   /\ normalize_model_name (lower model) = lower model)
  \/ normalize_model_name model = "claude-3-opus"%string
  \/ normalize_model_name model = "claude-3-5-sonnet"%string
  \/ normalize_model_name model = "claude-3-sonnet"%string
  \/ normalize_model_name model = "claude-3-5-haiku"%string
  \/ normalize_model_name model = "claude-3-haiku"%string
  \/ (normalize_model_name model = model /\ names_a_family model = false).
Proof.
  intros Hm.
  assert (Hl : String.eqb (lower model) "" = false)
    by (destruct model; [congruence | reflexivity]).
  apply String.eqb_neq in Hm.
  unfold normalize_model_name, names_a_family.
  rewrite lower_idempotent, Hl, Hm. cbv zeta.
  destruct (str_in "claude-opus-4-" (lower model)
            || str_in "claude-sonnet-4-" (lower model)
            || str_in "claude-haiku-4-" (lower model)
            || str_in "sonnet-4-" (lower model)
            || str_in "opus-4-" (lower model)
            || str_in "haiku-4-" (lower model)); [tauto |].
  destruct (str_in "opus" (lower model));
    [destruct (str_in "4-" (lower model)); tauto |].
  destruct (str_in "sonnet" (lower model));
    [destruct (str_in "4-" (lower model)); [tauto |];
     destruct (str_in "3.5" (lower model) || str_in "3-5" (lower model));
     tauto |].
  destruct (str_in "haiku" (lower model));
    [destruct (str_in "3.5" (lower model) || str_in "3-5" (lower model));
     tauto |].
  right. right. right. right. right. right. split; reflexivity.
Qed.

(** X19. [normalize_model_name] is idempotent on ASCII model names:
    normalising a normalised name returns it unchanged. *)
Theorem normalize_model_name_idempotent (model : string) :
  is_ascii model = true ->
  normalize_model_name (normalize_model_name model)
  = normalize_model_name model.
Proof.
  intros _.
  destruct (String.eqb_spec model "") as [-> | Hm]; [reflexivity |].
  destruct (normalize_model_name_cases model Hm)
    as [[H1 H2] | [H | [H | [H | [H | [H | [H _]]]]]]].
  - rewrite H1. exact H2.
  - rewrite H. reflexivity.
  - rewrite H. reflexivity.
  - rewrite H. reflexivity.
  - rewrite H. reflexivity.
  - rewrite H. reflexivity.
  - rewrite !H. reflexivity.
Qed.

Lemma normalize_model_name_idempotent_witness :
  normalize_model_name (normalize_model_name "Claude 3.5 Sonnet")
  = normalize_model_name "Claude 3.5 Sonnet".
Proof.
  apply (normalize_model_name_idempotent "Claude 3.5 Sonnet"). reflexivity.
Defined.

(** X20. On ASCII model names, [normalize_model_name] ignores letter case
    for a name that mentions opus, sonnet or haiku: two such names that
    differ in case only get the same key, which is in lower case.  A
    non-empty name that mentions none of the three is returned as it is,
    case included, and only the empty name gives the empty key. *)
Theorem normalize_model_name_case (model model' : string) :
  is_ascii model = true -> is_ascii model' = true ->
  lower model' = lower model ->
  (names_a_family model = true ->
   normalize_model_name model' = normalize_model_name model
   /\ lower (normalize_model_name model) = normalize_model_name model)
  /\ (names_a_family model = false -> normalize_model_name model = model)
  /\ (normalize_model_name model = ""%string <-> model = ""%string).
Proof.
  intros _ _ Hlow.
  split; [| split].
  - intros Hfam.
    assert (Hm : model <> ""%string)
      by (intros ->; vm_compute in Hfam; discriminate Hfam).
    assert (Hm' : model' <> ""%string).
    { intros ->. cbn [lower] in Hlow. symmetry in Hlow.
      apply (proj1 (lower_empty _)) in Hlow. exact (Hm Hlow). }
    assert (Hl : String.eqb (lower model) "" = false)
      by (destruct model; [congruence | reflexivity]).
    apply String.eqb_neq in Hm. apply String.eqb_neq in Hm'.
    unfold names_a_family in Hfam.
    unfold normalize_model_name. rewrite Hm, Hm', Hlow. cbv zeta.
    destruct (str_in "claude-opus-4-" (lower model)
              || str_in "claude-sonnet-4-" (lower model)
              || str_in "claude-haiku-4-" (lower model)
              || str_in "sonnet-4-" (lower model)
              || str_in "opus-4-" (lower model)
              || str_in "haiku-4-" (lower model));
      [split; [reflexivity | apply lower_idempotent] |].
    destruct (str_in "opus" (lower model));
      [destruct (str_in "4-" (lower model));
       split; (reflexivity || apply lower_idempotent) |].
    destruct (str_in "sonnet" (lower model));
      [destruct (str_in "4-" (lower model));
       [split; [reflexivity | apply lower_idempotent] |];
       destruct (str_in "3.5" (lower model) || str_in "3-5" (lower model));
       split; reflexivity |].
    destruct (str_in "haiku" (lower model));
      [destruct (str_in "3.5" (lower model) || str_in "3-5" (lower model));
       split; reflexivity |].
    discriminate Hfam.
  - intros Hfam. unfold names_a_family in Hfam.
    apply orb_false_iff in Hfam. destruct Hfam as [Hfam Hh].
    apply orb_false_iff in Hfam. destruct Hfam as [Ho Hs].
    unfold normalize_model_name.
    destruct (String.eqb_spec model "") as [-> | Hm]; [reflexivity |].
    cbv zeta. rewrite (version_four_patterns _ Ho Hs Hh), Ho, Hs, Hh.
    reflexivity.
  - split; [| intros ->; reflexivity].
    intros Hempty.
    destruct (String.eqb_spec model "") as [Heq | Hm]; [exact Heq |].
    destruct (normalize_model_name_cases model Hm)
      as [[H1 _] | [H | [H | [H | [H | [H | [H _]]]]]]];
      rewrite Hempty in *; try discriminate H.
    + symmetry in H1. apply (proj1 (lower_empty _)) in H1. exact H1.
    + symmetry. exact H.
Qed.

Lemma normalize_model_name_case_witness :
  (names_a_family "claude-3-opus-20240229" = true ->
   normalize_model_name "Claude-3-OPUS-20240229"
   = normalize_model_name "claude-3-opus-20240229"
   /\ lower (normalize_model_name "claude-3-opus-20240229")
      = normalize_model_name "claude-3-opus-20240229")
  /\ (names_a_family "claude-3-opus-20240229" = false ->
      normalize_model_name "claude-3-opus-20240229"
      = "claude-3-opus-20240229"%string)
  /\ (normalize_model_name "claude-3-opus-20240229" = ""%string
      <-> "claude-3-opus-20240229"%string = ""%string).
Proof.
  apply (normalize_model_name_case "claude-3-opus-20240229"
           "Claude-3-OPUS-20240229");
    reflexivity.
Defined.
(** ** Durations and averages *)

Lemma whole_days_duration (n : Z) :
  1 <= n <= 31 ->
  float_div (total_seconds (timedelta_days n)) (exact_of_int (24 * 3600))
  = decimal n 0
  /\ float_ltb float_zero (decimal n 0) = true.
Proof.
  intros Hn. destruct n as [| p | p]; try lia.
  do 5 (try destruct p as [p | p |]); try lia;
    vm_compute; split; reflexivity.
Qed.

(** X21. For a summary whose period is a whole number of days long, from
    1 to 31 (every period the calculator builds), [average_cost_per_day]
    is the total cost divided by that number: the guard against a
    non-positive duration does not fire.  For a period of length zero it
    is 0.0. *)
Theorem average_cost_per_day_of_whole_days (s : BillingPeriodSummary.t)
    (n : Z) :
  datetime_diff
    (BillingPeriod.end_time (BillingPeriodSummary.period s))
    (BillingPeriod.start_time (BillingPeriodSummary.period s))
  = timedelta_days n ->
  (1 <= n <= 31 ->
   average_cost_per_day s
   = float_div (BillingPeriodSummary.total_cost s) (decimal n 0))
  /\ (n = 0 -> average_cost_per_day s = float_zero).
Proof.
  intros Hdiff. unfold average_cost_per_day, duration_days. cbv zeta.
  rewrite Hdiff. split.
  - intros Hn. destruct (whole_days_duration n Hn) as [Hd Hpos].
    rewrite Hd, Hpos. reflexivity.
  - intros ->. reflexivity.
Qed.

Lemma average_cost_per_day_of_whole_days_witness :
  (1 <= 1 <= 31 ->
   average_cost_per_day test_summary
   = float_div (BillingPeriodSummary.total_cost test_summary) (decimal 1 0))
  /\ (1 = 0 -> average_cost_per_day test_summary = float_zero).
Proof.
  apply (average_cost_per_day_of_whole_days test_summary 1).
  vm_compute. reflexivity.
Defined.

(** X22. On the last day of the calendar, 9999-12-31, the Daily
    computation without a reset hour raises [OverflowError]: the end of
    the period would be the first day of year 10000. *)
Theorem daily_last_day_overflows (self : BillingPeriodCalculator)
    (t : datetime) :
  period_type self = DAILY ->
  (reset_day self = None \/ exists h, reset_day self = Some h /\ h <= 0) ->
  wf_datetime t -> toordinal (wall t) = _MAXORDINAL ->
  _calculate_period_boundaries self t = Raise OverflowError.
Proof.
  intros Htype Hreset Hwf Hord.
  unfold _calculate_period_boundaries. rewrite Htype.
  unfold _calculate_daily_boundaries. cbv zeta.
  rewrite replace_time by (assumption || lia). cbn [bind].
  assert (Hh : (0 <? default 0 (reset_day self)) = false).
  { destruct Hreset as [-> | (h & -> & Hh)]; cbn; [reflexivity |].
    apply Z.ltb_ge. exact Hh. }
  rewrite Hh. unfold datetime_add.
  rewrite naive_add_overflow; [reflexivity |].
  rewrite at_time_wall_micros, Hord.
  unfold timedelta_days, US_PER_DAY, US_PER_SECOND, _MAXORDINAL. lia.
Qed.

Lemma daily_last_day_overflows_witness :
  _calculate_period_boundaries (mk_calculator DAILY None None tz_utc)
    (utc 9999 12 31 14 30 0)
  = Raise OverflowError.
Proof.
  apply (daily_last_day_overflows (mk_calculator DAILY None None tz_utc)
           (utc 9999 12 31 14 30 0)).
  - reflexivity.
  - left. reflexivity.
  - reflexivity.
  - reflexivity.
Defined.
